(** * Change-data-capture pipeline: employees table replication

    A shallow embedding of the pipeline of this repository:
    [db_setup.py] (tables and the logging trigger of the source database),
    [employee.py] (the [CDCRecord] event and its JSON wire format),
    [producer.py] (the tailer that scans [emp_cdc] above a watermark) and
    [consumer.py] (the processor that applies each event to the replica). *)

From Stdlib Require Import ZArith Ascii String List DecimalString DecimalFacts DecimalZ.
From stdpp Require Import gmap strings list sorting.

Local Open Scope string_scope.
Local Open Scope Z_scope.

(** ** Python values shared by the modules *)

(** Exceptions that the modelled code can see.  Their message text belongs to
    the libraries, so an exception is kept as a value and never rendered. *)
Inductive exn :=
  | JSONDecodeError
  | TypeError
  | OperationalError (msg : string).

(** A line written by [print]: plain text, or a prefix followed by the
    exception that an f-string interpolates. *)
Inductive line :=
  | Out (s : string)
  | OutExn (pre : string) (e : exn).

(** [str(n)] for a Python [int]. *)
Definition str_int (z : Z) : string := NilZero.string_of_int (Z.to_int z).

(** ** The [json] module, restricted to what [to_json] writes

    Python strings are modelled as [string]; a character is the code point
    of that number (0 to 255).  The encoder is [json.dumps] with its default
    options ([ensure_ascii], separators [", "] and [": "]); the decoder is
    [json.loads] on objects whose members are integers, strings or [null].
    Any other text is rejected with [None]. *)
Module Json.

Inductive value :=
  | Null
  | Int (z : Z)
  | Str (s : string).

Definition dquote : ascii := "034"%char.
Definition bslash : ascii := "092"%char.

Definition hex_digit (n : N) : ascii :=
  if (n <? 10)%N then ascii_of_N (48 + n) else ascii_of_N (87 + n).

(** [ESCAPE_DCT] first, then the [\u00xx] form for what is left outside
    the printable ASCII range. *)
Definition escape_char (c : ascii) : string :=
  let n := N_of_ascii c in
  if Ascii.eqb c dquote then String bslash (String dquote "")
  else if Ascii.eqb c bslash then String bslash (String bslash "")
  else if (n =? 8)%N then String bslash "b"
  else if (n =? 12)%N then String bslash "f"
  else if (n =? 10)%N then String bslash "n"
  else if (n =? 13)%N then String bslash "r"
  else if (n =? 9)%N then String bslash "t"
  else if ((32 <=? n) && (n <=? 126))%N then String c ""
  else String bslash
         ("u00" +:+ String (hex_digit (n / 16)) (String (hex_digit (n mod 16)) "")).

Fixpoint escape (s : string) : string :=
  match s with
  | "" => ""
  | String c s' => escape_char c +:+ escape s'
  end.

Definition encode_string (s : string) : string :=
  String dquote (escape s +:+ String dquote "").

Definition encode_value (v : value) : string :=
  match v with
  | Null => "null"
  | Int z => str_int z
  | Str s => encode_string s
  end.

Definition encode_member (kv : string * value) : string :=
  encode_string kv.1 +:+ ": " +:+ encode_value kv.2.

Fixpoint join (sep : string) (l : list string) : string :=
  match l with
  | [] => ""
  | [x] => x
  | x :: l' => x +:+ sep +:+ join sep l'
  end.

(** [json.dumps] of a dict given as its items in insertion order. *)
Definition dumps (d : list (string * value)) : string :=
  "{" +:+ join ", " (map encode_member d) +:+ "}".

(** *** Decoder *)

Definition hex_val (c : ascii) : option N :=
  let n := N_of_ascii c in
  if ((48 <=? n) && (n <=? 57))%N then Some (n - 48)%N
  else if ((97 <=? n) && (n <=? 102))%N then Some (n - 87)%N
  else if ((65 <=? n) && (n <=? 70))%N then Some (n - 55)%N
  else None.

Definition hex4 (a b c d : ascii) : option N :=
  match hex_val a, hex_val b, hex_val c, hex_val d with
  | Some x, Some y, Some z, Some w => Some (((x * 16 + y) * 16 + z) * 16 + w)%N
  | _, _, _, _ => None
  end.

(** The [BACKSLASH] table of the decoder. *)
Definition unescape (e : ascii) : option ascii :=
  if Ascii.eqb e dquote then Some dquote
  else if Ascii.eqb e bslash then Some bslash
  else if Ascii.eqb e "/" then Some "/"%char
  else if Ascii.eqb e "b" then Some "008"%char
  else if Ascii.eqb e "f" then Some "012"%char
  else if Ascii.eqb e "n" then Some "010"%char
  else if Ascii.eqb e "r" then Some "013"%char
  else if Ascii.eqb e "t" then Some "009"%char
  else None.

Definition consc (c : ascii) (r : option (string * string)) : option (string * string) :=
  match r with
  | Some (x, rest) => Some (String c x, rest)
  | None => None
  end.

(** [scanstring] in strict mode, called after the opening quote: the
    decoded string and the text after the closing quote. *)
Fixpoint scanstring (s : string) : option (string * string) :=
  match s with
  | "" => None
  | String c s' =>
    if Ascii.eqb c dquote then Some ("", s')
    else if Ascii.eqb c bslash then
      match s' with
      | "" => None
      | String e s'' =>
        if Ascii.eqb e "u" then
          match s'' with
          | String h1 (String h2 (String h3 (String h4 t))) =>
            match hex4 h1 h2 h3 h4 with
            | Some n => if (n <? 256)%N then consc (ascii_of_N n) (scanstring t) else None
            | None => None
            end
          | _ => None
          end
        else
          match unescape e with
          | Some ch => consc ch (scanstring s'')
          | None => None
          end
      end
    else if (N_of_ascii c <? 32)%N then None
    else consc c (scanstring s')
  end.

(** The longest run of decimal digits at the head of the text. *)
Fixpoint scan_digits (s : string) : Decimal.uint * string :=
  match s with
  | "" => (Decimal.Nil, "")
  | String c s' =>
    let '(d, rest) := scan_digits s' in
    match uint_of_char c (Some d) with
    | Some d' => (d', rest)
    | None => (Decimal.Nil, s)
    end
  end.

(** [NUMBER_RE] without fraction and exponent: an optional sign, then
    [0] or a digit run that does not start with [0]. *)
Definition scan_number (s : string) : option (Z * string) :=
  let '(neg, s1) :=
    match s with
    | String c t => if Ascii.eqb c "-" then (true, t) else (false, s)
    | "" => (false, s)
    end in
  let '(d, rest) := scan_digits s1 in
  match d with
  | Decimal.Nil => None
  | Decimal.D0 Decimal.Nil => Some (0, rest)
  | Decimal.D0 _ => None
  | _ => Some (Z.of_int (if neg then Decimal.Neg d else Decimal.Pos d), rest)
  end.

(** A text that does not go on with a decimal digit. *)
Definition no_digit (rest : string) : Prop := scan_digits rest = (Decimal.Nil, rest).

Definition is_ws (c : ascii) : bool :=
  Ascii.eqb c " " || Ascii.eqb c "009" || Ascii.eqb c "010" || Ascii.eqb c "013".

Fixpoint skip_ws (s : string) : string :=
  match s with
  | String c s' => if is_ws c then skip_ws s' else s
  | "" => ""
  end.

(** The text after the prefix [p], when [s] starts with it. *)
Fixpoint strip_prefix (p s : string) : option string :=
  match p, s with
  | "", _ => Some s
  | String a p', String b s' => if Ascii.eqb a b then strip_prefix p' s' else None
  | String _ _, "" => None
  end.

Definition scan_value (s : string) : option (value * string) :=
  match strip_prefix (String dquote "") s with
  | Some t =>
    match scanstring t with
    | Some (x, rest) => Some (Str x, rest)
    | None => None
    end
  | None =>
    match strip_prefix "null" s with
    | Some rest => Some (Null, rest)
    | None =>
      match scan_number s with
      | Some (z, rest) => Some (Int z, rest)
      | None => None
      end
    end
  end.

(** The member loop of [JSONObject]; [s] starts at the quote that opens a
    key.  One unit of fuel is spent per member. *)
Fixpoint scan_members (fuel : nat) (s : string) (acc : list (string * value))
  : option (list (string * value) * string) :=
  match fuel with
  | O => None
  | S fuel' =>
    match strip_prefix (String dquote "") s with
    | Some t =>
      match scanstring t with
      | Some (k, r1) =>
        match strip_prefix ":" (skip_ws r1) with
        | Some r2 =>
          match scan_value (skip_ws r2) with
          | Some (v, r3) =>
            match strip_prefix "}" (skip_ws r3) with
            | Some r4 => Some ((acc ++ [(k, v)])%list, r4)
            | None =>
              match strip_prefix "," (skip_ws r3) with
              | Some r4 => scan_members fuel' (skip_ws r4) (acc ++ [(k, v)])%list
              | None => None
              end
            end
          | None => None
          end
        | None => None
        end
      | None => None
      end
    | None => None
    end
  end.

Definition at_end (s : string) : bool :=
  match skip_ws s with
  | "" => true
  | _ => false
  end.

(** [json.loads] on an object: its pairs in the order of the text. *)
Definition loads (s : string) : option (list (string * value)) :=
  match strip_prefix "{" (skip_ws s) with
  | Some r1 =>
    match strip_prefix "}" (skip_ws r1) with
    | Some r2 => if at_end r2 then Some [] else None
    | None =>
      match scan_members (String.length s) (skip_ws r1) [] with
      | Some (pairs, r3) => if at_end r3 then Some pairs else None
      | None => None
      end
    end
  | None => None
  end.

End Json.

(** ** [employee.py]: the change event *)
Module Employee.

(** [CDCRecord]: one row of [emp_cdc].  The nullable columns that the
    trigger copies from [employees] may hold [None]; [dob] is always text,
    because the producer passes [str(...)] or the empty string. *)
Record CDCRecord := mkCDCRecord {
  cdc_id : Z;
  emp_id : Z;
  first_name : option string;
  last_name : option string;
  dob : string;
  city : option string;
  salary : option Z;
  action : string
}.

(** The defaults of [__init__]. *)
Definition CDCRecord_default : CDCRecord :=
  mkCDCRecord 0 0 (Some "") (Some "") "" (Some "") (Some 0) "".

Definition of_opt_str (o : option string) : Json.value :=
  match o with
  | Some s => Json.Str s
  | None => Json.Null
  end.

Definition of_opt_int (o : option Z) : Json.value :=
  match o with
  | Some z => Json.Int z
  | None => Json.Null
  end.

(** [self.__dict__]: the attributes in the order [__init__] assigns them. *)
Definition self_dict (r : CDCRecord) : list (string * Json.value) :=
  [ ("cdc_id", Json.Int (cdc_id r));
    ("emp_id", Json.Int (emp_id r));
    ("first_name", of_opt_str (first_name r));
    ("last_name", of_opt_str (last_name r));
    ("dob", Json.Str (dob r));
    ("city", of_opt_str (city r));
    ("salary", of_opt_int (salary r));
    ("action", Json.Str (action r)) ].

Definition to_json (r : CDCRecord) : string := Json.dumps (self_dict r).

Definition as_int (v : Json.value) : option Z :=
  match v with
  | Json.Int z => Some z
  | _ => None
  end.

Definition as_str (v : Json.value) : option string :=
  match v with
  | Json.Str s => Some s
  | _ => None
  end.

Definition as_opt_int (v : Json.value) : option (option Z) :=
  match v with
  | Json.Int z => Some (Some z)
  | Json.Null => Some None
  | Json.Str _ => None
  end.

Definition as_opt_str (v : Json.value) : option (option string) :=
  match v with
  | Json.Str s => Some (Some s)
  | Json.Null => Some None
  | Json.Int _ => None
  end.

(** One keyword argument of the call that unpacks [data] into
    [CDCRecord]: the key has to name a parameter of [__init__].  A value of
    another type than the producer writes is outside the typed record and
    is refused as well. *)
Definition bind_kwarg (r : CDCRecord) (kv : string * Json.value) : option CDCRecord :=
  let '(k, v) := kv in
  let '(mkCDCRecord a b c d e f g h) := r in
  if String.eqb k "cdc_id" then x ← as_int v; Some (mkCDCRecord x b c d e f g h)
  else if String.eqb k "emp_id" then x ← as_int v; Some (mkCDCRecord a x c d e f g h)
  else if String.eqb k "first_name" then x ← as_opt_str v; Some (mkCDCRecord a b x d e f g h)
  else if String.eqb k "last_name" then x ← as_opt_str v; Some (mkCDCRecord a b c x e f g h)
  else if String.eqb k "dob" then x ← as_str v; Some (mkCDCRecord a b c d x f g h)
  else if String.eqb k "city" then x ← as_opt_str v; Some (mkCDCRecord a b c d e x g h)
  else if String.eqb k "salary" then x ← as_opt_int v; Some (mkCDCRecord a b c d e f x h)
  else if String.eqb k "action" then x ← as_str v; Some (mkCDCRecord a b c d e f g x)
  else None.

(** The call that unpacks [data] into [CDCRecord]: a parameter that
    [data] does not mention keeps its default, and of a key that the text
    repeats the last value counts, as in the dict that [json.loads]
    builds. *)
Fixpoint bind_kwargs (r : CDCRecord) (data : list (string * Json.value)) : option CDCRecord :=
  match data with
  | [] => Some r
  | kv :: data' =>
    match bind_kwarg r kv with
    | Some r' => bind_kwargs r' data'
    | None => None
    end
  end.

Definition from_json (json_str : string) : exn + CDCRecord :=
  match Json.loads json_str with
  | None => inl JSONDecodeError
  | Some data =>
    match bind_kwargs CDCRecord_default data with
    | Some r => inr r
    | None => inl TypeError
    end
  end.

End Employee.

(** ** [datetime.date], as psycopg2 returns a DATE column *)

Record date := mkDate { year : nat; month : nat; day : nat }.

(** [s.zfill(w)] for a string of digits. *)
Definition zfill (w : nat) (s : string) : string :=
  string_of_list_ascii (repeat "0"%char (w - String.length s)) +:+ s.

Definition str_nat (n : nat) : string := NilZero.string_of_uint (Nat.to_uint n).

(** [str(d)]: the ISO form [YYYY-MM-DD]. *)
Definition date_str (d : date) : string :=
  zfill 4 (str_nat (year d)) +:+ "-" +:+ zfill 2 (str_nat (month d))
  +:+ "-" +:+ zfill 2 (str_nat (day d)).

(** ** [db_setup.py]: the tables and the trigger of the source database *)
Module DbSetup.

(** A row of [employees] without its primary key [emp_id], which is the
    key of the table.  [D] is the representation of the DATE column: a
    [date] in the source database, and in the replica the text that the
    consumer hands to the column. *)
Record employees_row (D : Type) := mk_employees_row {
  first_name : option string;
  last_name : option string;
  dob : option D;
  city : option string;
  salary : option Z
}.
Arguments mk_employees_row {D}.
Arguments first_name {D}.
Arguments last_name {D}.
Arguments dob {D}.
Arguments city {D}.
Arguments salary {D}.

(** A row of [emp_cdc] without its primary key [cdc_id]. *)
Record emp_cdc_row := mk_emp_cdc_row {
  emp_id : Z;
  snapshot : employees_row date;
  action : string
}.

(** The source database: both tables and the last value that the
    sequence behind [cdc_id SERIAL] has handed out. *)
Record source_db := mk_source_db {
  employees : gmap Z (employees_row date);
  emp_cdc : gmap Z emp_cdc_row;
  cdc_id_seq : Z
}.

Definition empty_source : source_db := mk_source_db ∅ ∅ 0.

(** [INSERT INTO emp_cdc (emp_id, ..., action) VALUES (...)]: the
    [cdc_id] is the next value of the sequence. *)
Definition insert_emp_cdc (row : emp_cdc_row) (db : source_db) : source_db :=
  let id := cdc_id_seq db + 1 in
  mk_source_db (employees db) (<[id := row]> (emp_cdc db)) id.

(** [employee_cdc_trigger_func]: [OLD] and [NEW] are the row before and
    after the statement, each with its [emp_id]. *)
Definition employee_cdc_trigger_func (TG_OP : string)
    (OLD NEW : option (Z * employees_row date)) (db : source_db) : source_db :=
  if String.eqb TG_OP "INSERT" then
    match NEW with
    | Some (k, new) => insert_emp_cdc (mk_emp_cdc_row k new "INSERT") db
    | None => db
    end
  else if String.eqb TG_OP "UPDATE" then
    match NEW with
    | Some (k, new) => insert_emp_cdc (mk_emp_cdc_row k new "UPDATE") db
    | None => db
    end
  else if String.eqb TG_OP "DELETE" then
    match OLD with
    | Some (k, old) => insert_emp_cdc (mk_emp_cdc_row k old "DELETE") db
    | None => db
    end
  else db.

(** The statements that change [employees], each addressing one primary
    key.  The trigger runs AFTER the statement FOR EACH ROW it changed. *)
Inductive statement :=
  | Insert (k : Z) (row : employees_row date)
  | Update (k : Z) (row : employees_row date)
  | Delete (k : Z).

Definition set_employees (t : gmap Z (employees_row date)) (db : source_db) : source_db :=
  mk_source_db t (emp_cdc db) (cdc_id_seq db).

Definition execute (st : statement) (db : source_db) : source_db :=
  match st with
  | Insert k row =>
    match employees db !! k with
    | Some _ => db
    | None =>
      employee_cdc_trigger_func "INSERT" None (Some (k, row))
        (set_employees (<[k := row]> (employees db)) db)
    end
  | Update k row =>
    match employees db !! k with
    | Some old =>
      employee_cdc_trigger_func "UPDATE" (Some (k, old)) (Some (k, row))
        (set_employees (<[k := row]> (employees db)) db)
    | None => db
    end
  | Delete k =>
    match employees db !! k with
    | Some old =>
      employee_cdc_trigger_func "DELETE" (Some (k, old)) None
        (set_employees (delete k (employees db)) db)
    | None => db
    end
  end.

Definition execute_all (sts : list statement) (db : source_db) : source_db :=
  foldl (λ db st, execute st db) db sts.

End DbSetup.

(** ** [producer.py]: the tailer of [emp_cdc] *)
Module Producer.
Import Employee.

(** [CDCDataHandler]: of its attributes only [last_offset] changes. *)
Record CDCDataHandler := mkCDCDataHandler { last_offset : Z }.

(** [__init__]: the offset starts at zero. *)
Definition new_handler : CDCDataHandler := mkCDCDataHandler 0.

(** A fetched row: [cdc_id] and the other columns. *)
Abbreviation fetched := (Z * DbSetup.emp_cdc_row)%type.

Definition cdc_id_le (a b : fetched) : Prop := (a.1 ≤ b.1)%Z.

#[export] Instance cdc_id_le_dec : RelDecision cdc_id_le.
Proof. intros a b. unfold cdc_id_le. apply _. Defined.

(** [SELECT ... FROM emp_cdc WHERE cdc_id > %s ORDER BY cdc_id ASC]. *)
Definition select_emp_cdc (t : gmap Z DbSetup.emp_cdc_row) (offset : Z) : list fetched :=
  merge_sort cdc_id_le (filter (λ row : fetched, (offset < row.1)%Z) (map_to_list t)).

(** The [CDCRecord(...)] built from one row. *)
Definition record_of_row (row : fetched) : CDCRecord :=
  let s := DbSetup.snapshot row.2 in
  mkCDCRecord row.1 (DbSetup.emp_id row.2)
    (DbSetup.first_name s) (DbSetup.last_name s)
    (match DbSetup.dob s with
     | Some d => date_str d
     | None => ""
     end)
    (DbSetup.city s) (DbSetup.salary s) (DbSetup.action row.2).

(** The body of [for row in rows]. *)
Definition scan_row (acc : list CDCRecord * CDCDataHandler) (row : fetched)
  : list CDCRecord * CDCDataHandler :=
  let '(records, self) := acc in
  let record := record_of_row row in
  ((records ++ [record])%list,
   if last_offset self <? cdc_id record then mkCDCDataHandler (cdc_id record) else self).

(** [get_new_cdc_records].  [source] is what the database answers at this
    call: an exception raised while connecting or querying, or the
    contents of [emp_cdc].  The result is the list returned, the handler
    afterwards and the lines printed. *)
Definition get_new_cdc_records (source : exn + gmap Z DbSetup.emp_cdc_row)
    (self : CDCDataHandler) : list CDCRecord * CDCDataHandler * list line :=
  match source with
  | inr t =>
    let rows := select_emp_cdc t (last_offset self) in
    (foldl scan_row ([], self) rows, [])
  | inl e => ([], self, [OutExn "Error fetching CDC records: " e])
  end.

(** A message handed to the Kafka producer: key and value. *)
Definition produce (record : CDCRecord) : string * string :=
  (str_int (emp_id record), to_json record).

(** A run of polling cycles, one answer of the database per cycle: the
    records of every cycle and the handler at the end. *)
Fixpoint poll_cycles (sources : list (exn + gmap Z DbSetup.emp_cdc_row))
    (self : CDCDataHandler) : list (list CDCRecord) * CDCDataHandler :=
  match sources with
  | [] => ([], self)
  | source :: sources' =>
    let cycle := get_new_cdc_records source self in
    let later := poll_cycles sources' cycle.1.2 in
    (cycle.1.1 :: later.1, later.2)
  end.

(** The largest of an offset and the identifiers of some rows. *)
Definition max_offset (offset : Z) (rows : list fetched) : Z :=
  foldl (λ m row, Z.max m row.1) offset rows.

End Producer.

(** ** [consumer.py]: applying the events to the replica *)
Module Consumer.
Import Employee.

(** The destination table, keyed by [emp_id]. *)
Abbreviation replica := (gmap Z (DbSetup.employees_row string)).

(** A psycopg2 cursor on an autocommit connection: the table it acts on
    and [rowcount] of its last statement. *)
Record cursor := mk_cursor { table : replica; rowcount : Z }.

(** The attribute values passed to the INSERT and the UPDATE. *)
Definition row_of_record (record : CDCRecord) : DbSetup.employees_row string :=
  DbSetup.mk_employees_row (first_name record) (last_name record)
    (if String.eqb (dob record) "" then None else Some (dob record))
    (city record) (salary record).

(** The three statements are defined on every table: a column takes the
    value that it is given.  With that no [cur.execute] raises, and the
    [except] branch of a handler is not reached.

    [INSERT INTO employees ... ON CONFLICT (emp_id) DO UPDATE SET ...]. *)
Definition execute_upsert (k : Z) (row : DbSetup.employees_row string) (cur : cursor) : cursor :=
  mk_cursor (<[k := row]> (table cur)) 1.

(** [UPDATE employees SET ... WHERE emp_id = %s]. *)
Definition execute_update (k : Z) (row : DbSetup.employees_row string) (cur : cursor) : cursor :=
  match table cur !! k with
  | Some _ => mk_cursor (<[k := row]> (table cur)) 1
  | None => mk_cursor (table cur) 0
  end.

(** [DELETE FROM employees WHERE emp_id = %s]. *)
Definition execute_delete (k : Z) (cur : cursor) : cursor :=
  match table cur !! k with
  | Some _ => mk_cursor (delete k (table cur)) 1
  | None => mk_cursor (table cur) 0
  end.

Definition _handle_insert (cur : cursor) (record : CDCRecord) : cursor * list line :=
  (execute_upsert (emp_id record) (row_of_record record) cur,
   [Out ("  -> INSERT applied for emp_id=" +:+ str_int (emp_id record))]).

Definition _handle_update (cur : cursor) (record : CDCRecord) : cursor * list line :=
  let cur1 := execute_update (emp_id record) (row_of_record record) cur in
  if rowcount cur1 =? 0 then
    let '(cur2, out) := _handle_insert cur1 record in
    (cur2,
     (out ++ [Out ("  -> UPDATE: emp_id=" +:+ str_int (emp_id record)
                     +:+ " not found, inserted instead")])%list)
  else
    (cur1, [Out ("  -> UPDATE applied for emp_id=" +:+ str_int (emp_id record))]).

Definition _handle_delete (cur : cursor) (record : CDCRecord) : cursor * list line :=
  let cur1 := execute_delete (emp_id record) cur in
  if 0 <? rowcount cur1 then
    (cur1, [Out ("  -> DELETE applied for emp_id=" +:+ str_int (emp_id record))])
  else
    (cur1, [Out ("  -> DELETE: emp_id=" +:+ str_int (emp_id record)
                   +:+ " not found (already deleted)")]).

(** [str(x)] of an attribute inside an f-string. *)
Definition fmt (o : option string) : string :=
  match o with
  | Some s => s
  | None => "None"
  end.

(** The destination database and the terminal. *)
Record world := mk_world { employees : replica; stdout : list line }.

Definition empty_world : world := mk_world ∅ [].

(** The line that announces a decoded record. *)
Definition processing_line (cdc_record : CDCRecord) : line :=
  Out ("Processing CDC record: action=" +:+ action cdc_record
       +:+ ", emp_id=" +:+ str_int (emp_id cdc_record)
       +:+ ", name=" +:+ fmt (first_name cdc_record)
       +:+ " " +:+ fmt (last_name cdc_record)).

(** [process_message].  [msg] is the decoded value of the Kafka message;
    [connect] is the outcome of [get_connection] at this call. *)
Definition process_message (connect : exn + unit) (msg : string) (w : world) : world :=
  match from_json msg with
  | inl e => mk_world (employees w) (stdout w ++ [OutExn "Error processing message: " e])%list
  | inr cdc_record =>
    let out0 := [processing_line cdc_record] in
    match connect with
    | inl e =>
      mk_world (employees w)
        (stdout w ++ out0 ++ [OutExn "Error processing message: " e])%list
    | inr _ =>
      let cur := mk_cursor (employees w) (-1) in
      let '(cur', out) :=
        if String.eqb (action cdc_record) "INSERT" then _handle_insert cur cdc_record
        else if String.eqb (action cdc_record) "UPDATE" then _handle_update cur cdc_record
        else if String.eqb (action cdc_record) "DELETE" then _handle_delete cur cdc_record
        else (cur, [Out ("Unknown action: " +:+ action cdc_record)]) in
      mk_world (table cur') (stdout w ++ out0 ++ out)%list
    end
  end.

(** What [self.poll(timeout=1.0)] returns: nothing, a message that carries
    an error (the end of a partition or another one, with its text), or a
    message, given by its decoded value. *)
Inductive polled :=
  | NoMessage
  | PollError (partition_eof : bool) (text : string)
  | Message (value : string).

(** One turn of the [while] loop of [consume_cdc]. *)
Definition consume_step (processing_func : string → world → world) (w : world)
    (msg : polled) : world :=
  match msg with
  | NoMessage => w
  | PollError true _ => w
  | PollError false text =>
    mk_world (employees w) (stdout w ++ [Out ("Consumer error: " +:+ text)])%list
  | Message value => processing_func value w
  end.

(** The loop of [consume_cdc] over the answers of the polls. *)
Definition consume_cdc (processing_func : string → world → world)
    (polls : list polled) (w : world) : world :=
  foldl (consume_step processing_func) w polls.

End Consumer.

(** ** The pipeline from the source tables to the replica *)
Module Pipeline.
Import Employee.

#[export] Instance CDCRecord_eq_dec : EqDecision CDCRecord.
Proof. solve_decision. Defined.

(** The replica's picture of a source row: the DATE column in the text
    that the producer writes for it. *)
Definition mirror (row : DbSetup.employees_row date) : DbSetup.employees_row string :=
  DbSetup.mk_employees_row (DbSetup.first_name row) (DbSetup.last_name row)
    (date_str <$> DbSetup.dob row) (DbSetup.city row) (DbSetup.salary row).

(** The change events of a source database: what a tailer that starts at
    offset zero reads from its [emp_cdc]. *)
Definition change_events (db : DbSetup.source_db) : list CDCRecord :=
  (Producer.get_new_cdc_records (inr (DbSetup.emp_cdc db)) Producer.new_handler).1.1.

(** Per-key order: an event is never followed by an event of the same
    [emp_id] with a smaller [cdc_id].  Repetitions pass. *)
Fixpoint key_ordered (delivered : list CDCRecord) : bool :=
  match delivered with
  | [] => true
  | a :: later =>
    forallb (λ b, negb (emp_id a =? emp_id b) || (cdc_id a <=? cdc_id b)) later
    && key_ordered later
  end.

(** [delivered] is a delivery of [events]: every event arrives at least
    once, nothing else arrives, and the per-key order is kept. *)
Definition delivery_of (events delivered : list CDCRecord) : bool :=
  forallb (λ e, bool_decide (e ∈ delivered)) events
  && forallb (λ e, bool_decide (e ∈ events)) delivered
  && key_ordered delivered.


(** The last event of a key in a stream. *)
Fixpoint last_for (k : Z) (events : list CDCRecord) : option CDCRecord :=
  match events with
  | [] => None
  | r :: later =>
    match last_for k later with
    | Some x => Some x
    | None => if emp_id r =? k then Some r else None
    end
  end.

(** A stream that settles every key: nothing but events arrives, and for
    every event the last arrival of its key is that event or a later one.
    A delivery in per-key order is of this kind, and so is a stream that
    replays a stretch of the log and then runs to its end. *)
Definition settles (events delivered : list CDCRecord) : bool :=
  forallb (λ e, bool_decide (e ∈ events)) delivered
  && forallb (λ e, match last_for (emp_id e) delivered with
                   | Some l => cdc_id e <=? cdc_id l
                   | None => false
                   end) events.

(** The polls that deliver a stream: one message per event, with the value
    that the producer wrote for it. *)
Definition polls_of (delivered : list CDCRecord) : list Consumer.polled :=
  (λ r, Consumer.Message (Producer.produce r).2) <$> delivered.

(** The consumer's loop over a stream, with the destination database
    reachable at every message. *)
Definition apply_stream (delivered : list CDCRecord) (w : Consumer.world) : Consumer.world :=
  Consumer.consume_cdc (Consumer.process_message (inr ())) (polls_of delivered) w.

(** The row that an event of a dispatched action leaves at its key. *)
Definition effect (r : CDCRecord) : option (DbSetup.employees_row string) :=
  if String.eqb (action r) "DELETE" then None else Some (Consumer.row_of_record r).

Definition dispatched (a : string) : Prop := a = "INSERT" ∨ a = "UPDATE" ∨ a = "DELETE".

(** The row of the log that is the latest of key [k]. *)
Definition latest (t : gmap Z DbSetup.emp_cdc_row) (k id : Z) (row : DbSetup.emp_cdc_row) : Prop :=
  t !! id = Some row ∧ DbSetup.emp_id row = k
  ∧ ∀ id' row', t !! id' = Some row' → DbSetup.emp_id row' = k → id' ≤ id.

(** What holds of a source database that the statements have built: the
    identifiers of the log are positive and handed out by the sequence, the
    actions are the three of the trigger, and a key has a row exactly when
    the latest row of the log for it is no DELETE, with that row's values. *)
Definition source_inv (db : DbSetup.source_db) : Prop :=
  0 ≤ DbSetup.cdc_id_seq db
  ∧ (∀ id row, DbSetup.emp_cdc db !! id = Some row →
       0 < id ≤ DbSetup.cdc_id_seq db ∧ dispatched (DbSetup.action row))
  ∧ (∀ k,
       match DbSetup.employees db !! k with
       | Some e =>
         ∃ id row, latest (DbSetup.emp_cdc db) k id row
                   ∧ DbSetup.action row ≠ "DELETE" ∧ DbSetup.snapshot row = e
       | None =>
         (∀ id row, DbSetup.emp_cdc db !! id = Some row → DbSetup.emp_id row ≠ k)
         ∨ (∃ id row, latest (DbSetup.emp_cdc db) k id row ∧ DbSetup.action row = "DELETE")
       end).

(** The source side of the pipeline step by step: a statement on the
    source database, or a polling cycle of the producer, whose query fails
    with an exception or reaches the database. *)
Inductive source_step :=
  | Exec (st : DbSetup.statement)
  | Cycle (failure : option exn).

(** The database, the handler and the records returned so far, after the
    steps. *)
Fixpoint run (steps : list source_step) (db : DbSetup.source_db)
    (self : Producer.CDCDataHandler) (sent : list CDCRecord)
  : DbSetup.source_db * Producer.CDCDataHandler * list CDCRecord :=
  match steps with
  | [] => (db, self, sent)
  | Exec st :: steps' => run steps' (DbSetup.execute st db) self sent
  | Cycle failure :: steps' =>
    let source :=
      match failure with
      | Some e => inl e
      | None => inr (DbSetup.emp_cdc db)
      end in
    let cycle := Producer.get_new_cdc_records source self in
    run steps' db cycle.1.2 (sent ++ cycle.1.1)
  end.

(** The rows of the log up to an offset, in ascending order. *)
Definition rows_upto (t : gmap Z DbSetup.emp_cdc_row) (offset : Z) : list Producer.fetched :=
  filter (λ row : Producer.fetched, row.1 ≤ offset) (Producer.select_emp_cdc t 0).

(** What holds along a run: the records returned so far are the rows of
    the log up to the offset, each once and in ascending order. *)
Definition run_inv (db : DbSetup.source_db) (self : Producer.CDCDataHandler)
    (sent : list CDCRecord) : Prop :=
  source_inv db
  ∧ 0 ≤ Producer.last_offset self ≤ DbSetup.cdc_id_seq db
  ∧ sent = Producer.record_of_row
             <$> rows_upto (DbSetup.emp_cdc db) (Producer.last_offset self).

(** An event without attribute values besides its key. *)
Definition no_snapshot (r : CDCRecord) : Prop :=
  first_name r = None ∧ last_name r = None ∧ dob r = "" ∧ city r = None ∧ salary r = None.

End Pipeline.

(** ** The run of [test_cdc.py] and the scenarios of the specification *)
Module Scenario.
Import Employee.

Definition john : DbSetup.employees_row date :=
  DbSetup.mk_employees_row (Some "John") (Some "Doe") (Some (mkDate 1990 5 15))
    (Some "New York") (Some 75000).

Definition john_raised : DbSetup.employees_row date :=
  DbSetup.mk_employees_row (Some "John") (Some "Doe") (Some (mkDate 1990 5 15))
    (Some "New York") (Some 85000).

Definition jane : DbSetup.employees_row date :=
  DbSetup.mk_employees_row (Some "Jane") (Some "Smith") (Some (mkDate 1985 8 22))
    (Some "Los Angeles") (Some 82000).

Definition bob : DbSetup.employees_row date :=
  DbSetup.mk_employees_row (Some "Bob") (Some "Johnson") (Some (mkDate 1992 3 10))
    (Some "Chicago") (Some 68000).

(** [test_insert], [test_update] and [test_delete], with the keys that the
    SERIAL column gives to the three rows. *)
Definition statements : list DbSetup.statement :=
  [DbSetup.Insert 1 john; DbSetup.Insert 2 jane; DbSetup.Insert 3 bob;
   DbSetup.Update 1 john_raised; DbSetup.Delete 3].

Definition e1 : CDCRecord :=
  mkCDCRecord 1 1 (Some "John") (Some "Doe") "1990-05-15" (Some "New York") (Some 75000) "INSERT".
Definition e2 : CDCRecord :=
  mkCDCRecord 2 2 (Some "Jane") (Some "Smith") "1985-08-22" (Some "Los Angeles") (Some 82000) "INSERT".
Definition e3 : CDCRecord :=
  mkCDCRecord 3 3 (Some "Bob") (Some "Johnson") "1992-03-10" (Some "Chicago") (Some 68000) "INSERT".
Definition e4 : CDCRecord :=
  mkCDCRecord 4 1 (Some "John") (Some "Doe") "1990-05-15" (Some "New York") (Some 85000) "UPDATE".
Definition e5 : CDCRecord :=
  mkCDCRecord 5 3 (Some "Bob") (Some "Johnson") "1992-03-10" (Some "Chicago") (Some 68000) "DELETE".

(** A text between double quotes. *)
Definition quoted (s : string) : string := String Json.dquote (s +:+ String Json.dquote "").

(** The value of the Kafka message for [e1], as [json.dumps] writes it. *)
Definition e1_text : string :=
  "{" +:+ quoted "cdc_id" +:+ ": 1, " +:+ quoted "emp_id" +:+ ": 1, "
  +:+ quoted "first_name" +:+ ": " +:+ quoted "John" +:+ ", "
  +:+ quoted "last_name" +:+ ": " +:+ quoted "Doe" +:+ ", "
  +:+ quoted "dob" +:+ ": " +:+ quoted "1990-05-15" +:+ ", "
  +:+ quoted "city" +:+ ": " +:+ quoted "New York" +:+ ", "
  +:+ quoted "salary" +:+ ": 75000, " +:+ quoted "action" +:+ ": " +:+ quoted "INSERT" +:+ "}".

(** The statements of [test_cdc.py] with the producer polling in between;
    the second cycle does not reach the database. *)
Definition steps : list Pipeline.source_step :=
  [Pipeline.Exec (DbSetup.Insert 1 john); Pipeline.Exec (DbSetup.Insert 2 jane);
   Pipeline.Cycle None;
   Pipeline.Exec (DbSetup.Insert 3 bob);
   Pipeline.Cycle (Some (OperationalError "connection refused"));
   Pipeline.Exec (DbSetup.Update 1 john_raised); Pipeline.Exec (DbSetup.Delete 3);
   Pipeline.Cycle None; Pipeline.Cycle None].

(** A delivery with repetitions that interleaves the three keys. *)
Definition delivered : list CDCRecord := [e1; e2; e1; e3; e2; e4; e3; e5; e4; e5].

(** Create(key=1, salary=1000) and its Update(key=1, salary=2000). *)
Definition create_1000 : CDCRecord :=
  mkCDCRecord 1 1 (Some "John") (Some "Doe") "1990-05-15" (Some "New York") (Some 1000) "INSERT".
Definition update_2000 : CDCRecord :=
  mkCDCRecord 2 1 (Some "John") (Some "Doe") "1990-05-15" (Some "New York") (Some 2000) "UPDATE".

(** Delete(key=99). *)
Definition delete_99 : CDCRecord := mkCDCRecord 6 99 None None "" None None "DELETE".

(** An event with an action that the consumer does not dispatch. *)
Definition truncate_1 : CDCRecord := mkCDCRecord 7 1 None None "" None None "TRUNCATE".

(** A replica that holds John and Jane. *)
Definition two_rows : Consumer.world :=
  Consumer.mk_world
    (<[1 := Pipeline.mirror john]> (<[2 := Pipeline.mirror jane]> ∅)) [].

End Scenario.

(** ** [employee.py]: the class [Employee] *)
Module EmployeeClass.

(** [Employee]: a row of [employees], with the field types of
    [Employee.CDCRecord]. *)
Record Employee := mkEmployee {
  emp_id : Z;
  first_name : option string;
  last_name : option string;
  dob : string;
  city : option string;
  salary : option Z
}.

(** The defaults of [__init__]. *)
Definition Employee_default : Employee :=
  mkEmployee 0 (Some "") (Some "") "" (Some "") (Some 0).

(** [self.__dict__]: the attributes in the order [__init__] assigns them. *)
Definition self_dict (e : Employee) : list (string * Json.value) :=
  [ ("emp_id", Json.Int (emp_id e));
    ("first_name", Employee.of_opt_str (first_name e));
    ("last_name", Employee.of_opt_str (last_name e));
    ("dob", Json.Str (dob e));
    ("city", Employee.of_opt_str (city e));
    ("salary", Employee.of_opt_int (salary e)) ].

Definition to_json (e : Employee) : string := Json.dumps (self_dict e).

(** One keyword argument of the call that unpacks [data] into [Employee]. *)
Definition bind_kwarg (e : Employee) (kv : string * Json.value) : option Employee :=
  let '(k, v) := kv in
  let '(mkEmployee a b c d f g) := e in
  if String.eqb k "emp_id" then x ← Employee.as_int v; Some (mkEmployee x b c d f g)
  else if String.eqb k "first_name" then x ← Employee.as_opt_str v; Some (mkEmployee a x c d f g)
  else if String.eqb k "last_name" then x ← Employee.as_opt_str v; Some (mkEmployee a b x d f g)
  else if String.eqb k "dob" then x ← Employee.as_str v; Some (mkEmployee a b c x f g)
  else if String.eqb k "city" then x ← Employee.as_opt_str v; Some (mkEmployee a b c d x g)
  else if String.eqb k "salary" then x ← Employee.as_opt_int v; Some (mkEmployee a b c d f x)
  else None.

Fixpoint bind_kwargs (e : Employee) (data : list (string * Json.value)) : option Employee :=
  match data with
  | [] => Some e
  | kv :: data' =>
    match bind_kwarg e kv with
    | Some e' => bind_kwargs e' data'
    | None => None
    end
  end.

Definition from_json (json_str : string) : exn + Employee :=
  match Json.loads json_str with
  | None => inl JSONDecodeError
  | Some data =>
    match bind_kwargs Employee_default data with
    | Some e => inr e
    | None => inl TypeError
    end
  end.

End EmployeeClass.

(** ** [admin.py]: the lookup of a topic *)
Module Admin.

(** A value of [metadata.topics]: of a [TopicMetadata] the loop reads the
    name only. *)
Record TopicMetadata := mkTopicMetadata { topic : string }.

(** [topic_exists], on the values of [metadata.topics] in the order of the
    iteration. *)
Fixpoint topic_exists (topics : list TopicMetadata) (name : string) : bool :=
  match topics with
  | [] => false
  | t :: later => if String.eqb (topic t) name then true else topic_exists later name
  end.

End Admin.

(** ** Notions for the statements about the code above *)
Module Notions.


(** A printable ASCII character: a space up to a tilde. *)
Definition printable (c : ascii) : bool :=
  ((32 <=? N_of_ascii c) && (N_of_ascii c <=? 126))%N.

(** A text of printable characters. *)
Definition all_printable (s : string) : Prop :=
  forallb printable (list_ascii_of_string s) = true.

Definition is_message (p : Consumer.polled) : bool :=
  match p with
  | Consumer.Message _ => true
  | _ => false
  end.

(** The [CDCRecord] that the defaults make of an [Employee]. *)
Definition record_of_employee (e : EmployeeClass.Employee) : Employee.CDCRecord :=
  Employee.mkCDCRecord 0 (EmployeeClass.emp_id e) (EmployeeClass.first_name e)
    (EmployeeClass.last_name e) (EmployeeClass.dob e) (EmployeeClass.city e)
    (EmployeeClass.salary e) "".

End Notions.

(** ** Concrete inputs for the statements above *)
Module Samples.
Import Scenario.


(** The log of [Scenario.statements], replayed from its third event. *)
Definition replayed : list Employee.CDCRecord := [e1; e2; e3; e4; e5; e3; e4; e5].

(** What had been delivered when the producer started again. *)
Definition before_restart : list Employee.CDCRecord := [e1; e2; e3].

End Samples.

(** * Facts *)

(** ** The JSON text of a value decodes to the value *)
#[local] Arguments String.append !s1 s2 : simpl nomatch.

Module JsonFacts.
Import Json.

(** The text that [json.dumps] writes, and its decoding. *)
Example dumps_example :
  dumps [("a", Int (-5)); ("b", Str "x y"); ("c", Null)]
  = "{" +:+ String dquote "a" +:+ String dquote ": -5, "
    +:+ String dquote "b" +:+ String dquote ": "
    +:+ String dquote "x y" +:+ String dquote ", "
    +:+ String dquote "c" +:+ String dquote ": null}".
Proof. reflexivity. Qed.

(** Escapes: a quote, a line feed and the character 233. *)
Example escape_example :
  escape (String dquote (String "010" (String "233" "")))
  = String bslash (String dquote (String bslash ("n" +:+ String bslash "u00e9"))).
Proof. reflexivity. Qed.

(** White space around the tokens, a repeated key and a leading zero. *)
Example loads_examples :
  loads (" { " +:+ String dquote "a" +:+ String dquote " : 1 , "
         +:+ String dquote "a" +:+ String dquote ":-0 } ")
  = Some [("a", Int 1); ("a", Int 0)]
  ∧ loads ("{" +:+ String dquote "a" +:+ String dquote ": 01}") = None
  ∧ loads ("{" +:+ String dquote "a" +:+ String dquote ": 1,}") = None
  ∧ loads "{}" = Some [].
Proof. repeat split; reflexivity. Qed.

Lemma append_assoc (a b c : string) : (a +:+ b) +:+ c = a +:+ (b +:+ c).
Proof. induction a as [|x a IH]; simpl; [done | by rewrite IH]. Qed.

(** The decoder undoes the escape of one character. *)
Lemma scanstring_escape_char (c : ascii) (t : string) :
  scanstring (escape_char c +:+ t) = consc c (scanstring t).
Proof. destruct c as [[] [] [] [] [] [] [] []]; reflexivity. Qed.

Lemma scanstring_escape (s rest : string) :
  scanstring (escape s +:+ String dquote rest) = Some (s, rest).
Proof.
  induction s as [|c s IH]; cbn [escape].
  - reflexivity.
  - rewrite append_assoc, scanstring_escape_char, IH. reflexivity.
Qed.

Lemma strip_dquote (t : string) : strip_prefix (String dquote "") (String dquote t) = Some t.
Proof. reflexivity. Qed.

Lemma scan_value_string (s rest : string) :
  scan_value (encode_string s +:+ rest) = Some (Str s, rest).
Proof.
  unfold scan_value, encode_string. simpl.
  rewrite append_assoc. simpl. by rewrite scanstring_escape.
Qed.

Lemma scan_digits_uint (d : Decimal.uint) (rest : string) :
  no_digit rest →
  scan_digits (NilEmpty.string_of_uint d +:+ rest) = (d, rest).
Proof.
  intros Hrest. induction d; simpl; try rewrite IHd; try reflexivity.
  exact Hrest.
Qed.

(** The decimal digits of a positive number do not start with a zero. *)
Lemma to_uint_head (p : positive) :
  match Pos.to_uint p with
  | Decimal.Nil | Decimal.D0 _ => False
  | _ => True
  end.
Proof.
  pose proof (DecimalPos.Unsigned.to_uint_nonnil p) as Hnil.
  pose proof (DecimalPos.Unsigned.to_of (Pos.to_uint p)) as Hnorm.
  rewrite DecimalPos.Unsigned.of_to in Hnorm. simpl in Hnorm.
  destruct (Pos.to_uint p) as [|d| | | | | | | | |] eqn:E; try done.
  rewrite unorm_D0 in Hnorm.
  pose proof (nzhead_nonzero d d) as Hnz.
  unfold Decimal.unorm in Hnorm.
  destruct (Decimal.nzhead d) eqn:En; try congruence.
  injection Hnorm as Hd. subst d.
  by apply (DecimalPos.Unsigned.to_uint_nonzero p).
Qed.

Lemma scan_number_int (z : Z) (rest : string) :
  no_digit rest →
  scan_number (str_int z +:+ rest) = Some (z, rest).
Proof.
  intros Hrest. unfold str_int, scan_number.
  destruct z as [|p|p]; simpl.
  - unfold no_digit in Hrest. rewrite Hrest. reflexivity.
  - pose proof (to_uint_head p) as Hhd.
    pose proof (DecimalPos.Unsigned.of_to p) as Hof.
    unfold NilZero.string_of_uint.
    destruct (Pos.to_uint p) as [|d|d|d|d|d|d|d|d|d|d] eqn:E; try done;
      simpl; rewrite (scan_digits_uint d rest Hrest); simpl;
      unfold Z.of_uint; rewrite Hof; reflexivity.
  - pose proof (to_uint_head p) as Hhd.
    pose proof (DecimalPos.Unsigned.of_to p) as Hof.
    unfold NilZero.string_of_uint.
    destruct (Pos.to_uint p) as [|d|d|d|d|d|d|d|d|d|d] eqn:E; try done;
      simpl; rewrite (scan_digits_uint d rest Hrest); simpl;
      unfold Z.of_uint; rewrite Hof; reflexivity.
Qed.


Lemma length_append (a b : string) :
  String.length (a +:+ b) = (String.length a + String.length b)%nat.
Proof. induction a as [|x a IH]; simpl; [done | by rewrite IH]. Qed.

(** The text of an integer starts with a digit or a sign: the decoder
    stands at it and takes it for a number. *)
Lemma str_int_head (z : Z) (rest : string) :
  strip_prefix (String dquote "") (str_int z +:+ rest) = None
  ∧ strip_prefix "null" (str_int z +:+ rest) = None
  ∧ skip_ws (str_int z +:+ rest) = str_int z +:+ rest.
Proof.
  unfold str_int. destruct z as [|p|p]; simpl; [done | | done].
  pose proof (to_uint_head p) as Hhd. unfold NilZero.string_of_uint.
  destruct (Pos.to_uint p); done.
Qed.

Lemma scan_value_int (z : Z) (rest : string) :
  no_digit rest →
  scan_value (str_int z +:+ rest) = Some (Int z, rest).
Proof.
  intros Hrest. unfold scan_value.
  destruct (str_int_head z rest) as (-> & -> & _).
  by rewrite scan_number_int.
Qed.

Lemma scan_value_encode (v : value) (rest : string) :
  no_digit rest →
  scan_value (encode_value v +:+ rest) = Some (v, rest).
Proof.
  intros Hrest. destruct v as [|z|s]; simpl.
  - reflexivity.
  - by apply scan_value_int.
  - apply scan_value_string.
Qed.

Lemma skip_ws_encode_value (v : value) (rest : string) :
  skip_ws (encode_value v +:+ rest) = encode_value v +:+ rest.
Proof.
  destruct v as [|z|s]; simpl; try reflexivity.
  apply str_int_head.
Qed.

Lemma no_digit_brace (rest : string) : no_digit (String "}" rest).
Proof. unfold no_digit. simpl. by destruct (scan_digits rest). Qed.

Lemma no_digit_comma (rest : string) : no_digit (String "," rest).
Proof. unfold no_digit. simpl. by destruct (scan_digits rest). Qed.

(** One member, followed by what the decoder meets after its value. *)
Lemma scan_member (k : string) (v : value) (rest : string) :
  no_digit rest →
  ∃ t, encode_member (k, v) +:+ rest = String dquote t
       ∧ scanstring t = Some (k, ": " +:+ encode_value v +:+ rest)
       ∧ scan_value (skip_ws (" " +:+ encode_value v +:+ rest)) = Some (v, rest).
Proof.
  intros Hrest. unfold encode_member, encode_string. simpl.
  eexists. split; [reflexivity |]. split.
  - rewrite !append_assoc. simpl. apply scanstring_escape.
  - rewrite skip_ws_encode_value. by apply scan_value_encode.
Qed.

Lemma join_cons (sep x : string) (l : list string) :
  l ≠ [] → join sep (x :: l) = x +:+ sep +:+ join sep l.
Proof. by destruct l. Qed.

Lemma scan_members_join (d : list (string * value)) :
  d ≠ [] →
  ∀ (fuel : nat) (acc : list (string * value)) (rest : string),
    (length d ≤ fuel)%nat →
    scan_members fuel (join ", " (map encode_member d) +:+ String "}" rest) acc
    = Some ((acc ++ d)%list, rest).
Proof.
  induction d as [|[k v] d IH]; [done |]. intros _ fuel acc rest Hfuel.
  destruct fuel as [|fuel]; [simpl in Hfuel; lia |].
  destruct d as [|kv d].
  - cbn [map join].
    destruct (scan_member k v (String "}" rest) (no_digit_brace rest))
      as (t & Heq & Hkey & Hval).
    cbn [scan_members]. rewrite Heq, strip_dquote, Hkey.
    change (skip_ws (": " +:+ encode_value v +:+ String "}" rest))
      with (": " +:+ encode_value v +:+ String "}" rest).
    change (strip_prefix ":" (": " +:+ encode_value v +:+ String "}" rest))
      with (Some (" " +:+ encode_value v +:+ String "}" rest)).
    cbv beta iota. rewrite Hval. reflexivity.
  - assert (Hne : kv :: d ≠ []) by done.
    specialize (IH Hne fuel (acc ++ [(k, v)])%list rest).
    set (d' := kv :: d) in *.
    change (map encode_member ((k, v) :: d'))
      with (encode_member (k, v) :: map encode_member d').
    rewrite join_cons by done.
    set (tail := join ", " (map encode_member d')) in *.
    rewrite !append_assoc.
    destruct (scan_member k v (", " +:+ tail +:+ String "}" rest)
                (no_digit_comma _)) as (t & Heq & Hkey & Hval).
    cbn [scan_members]. rewrite Heq, strip_dquote, Hkey.
    change (skip_ws (": " +:+ ?x)) with (": " +:+ x).
    change (strip_prefix ":" (": " +:+ ?x)) with (Some (" " +:+ x)).
    cbv beta iota. rewrite Hval.
    change (skip_ws (", " +:+ ?x)) with (", " +:+ x).
    change (strip_prefix "}" (", " +:+ ?x)) with (@None string).
    change (strip_prefix "," (", " +:+ ?x)) with (Some (" " +:+ x)).
    cbv beta iota.
    assert (Hskip : skip_ws (" " +:+ tail +:+ String "}" rest) = tail +:+ String "}" rest).
    { subst tail d'. destruct kv, d; reflexivity. }
    rewrite Hskip, IH by (subst d'; simpl in Hfuel |- *; lia).
    by rewrite <- app_assoc.
Qed.

Lemma length_join (l : list string) :
  Forall (λ s, (1 ≤ String.length s)%nat) l →
  (length l ≤ String.length (join ", " l))%nat.
Proof.
  induction 1 as [|s l Hs _ IH]; [done |].
  destruct (decide (l = [])) as [-> | Hne]; [simpl; lia |].
  rewrite join_cons, !length_append by done. cbn [length]. lia.
Qed.

(** [json.loads] undoes [json.dumps] on every dict of this kind. *)
Lemma loads_dumps (d : list (string * value)) : loads (dumps d) = Some d.
Proof.
  destruct d as [|kv d]; [reflexivity |].
  unfold loads, dumps.
  change (skip_ws ("{" +:+ ?x)) with ("{" +:+ x).
  change (strip_prefix "{" ("{" +:+ ?x)) with (Some x).
  cbv beta iota.
  assert (Hskip : ∀ rest, ∃ t,
    join ", " (map encode_member (kv :: d)) +:+ rest = String dquote t).
  { intros rest. destruct kv, d; cbn; eauto. }
  destruct (Hskip "}") as [t Ht]. rewrite Ht.
  change (skip_ws (String dquote t)) with (String dquote t).
  change (strip_prefix "}" (String dquote t)) with (@None string).
  cbv beta iota. rewrite <- Ht.
  rewrite scan_members_join; [reflexivity | done |].
  rewrite !length_append.
  pose proof (length_join (map encode_member (kv :: d))) as Hlen.
  rewrite length_map in Hlen.
  assert (Hall : Forall (λ s, (1 ≤ String.length s)%nat) (map encode_member (kv :: d))).
  { apply Forall_forall. intros s Hs. apply list_elem_of_fmap in Hs as [[k v] [-> _]].
    unfold encode_member, encode_string. simpl. lia. }
  specialize (Hlen Hall). lia.
Qed.

End JsonFacts.

(** ** The wire format of [CDCRecord] *)
Module EmployeeFacts.
Import Employee.

(** A key that is no parameter is refused, a missing one keeps its
    default, and of a repeated key the last value counts. *)
Example from_json_examples :
  from_json ("{" +:+ String Json.dquote "emp_id" +:+ String Json.dquote ": 4, "
             +:+ String Json.dquote "emp_id" +:+ String Json.dquote ": 5}")
  = inr (mkCDCRecord 0 5 (Some "") (Some "") "" (Some "") (Some 0) "")
  ∧ from_json ("{" +:+ String Json.dquote "id" +:+ String Json.dquote ": 4}") = inl TypeError
  ∧ from_json "{" = inl JSONDecodeError.
Proof. repeat split; reflexivity. Qed.

Lemma bind_kwargs_self_dict (r : CDCRecord) :
  bind_kwargs CDCRecord_default (self_dict r) = Some r.
Proof. destruct r as [a b [c|] [d|] e [f|] [g|] h]; reflexivity. Qed.

Lemma from_json_to_json (r : CDCRecord) : from_json (to_json r) = inr r.
Proof.
  unfold from_json, to_json.
  by rewrite JsonFacts.loads_dumps, bind_kwargs_self_dict.
Qed.

(** C10: decoding the JSON text of a record gives the record back, with
    every field as it was. *)
Theorem from_json_round_trip (r : CDCRecord) : from_json (to_json r) = inr r.
Proof. apply from_json_to_json. Qed.

End EmployeeFacts.

(** ** The apply engine *)
Module ConsumerFacts.
Import Employee Consumer Pipeline.

(** What one message does to the table, when the database is reachable. *)
Lemma process_message_table (r : CDCRecord) (w : world) :
  employees (process_message (inr ()) (to_json r) w) =
    if String.eqb (action r) "INSERT" then <[emp_id r := row_of_record r]> (employees w)
    else if String.eqb (action r) "UPDATE" then <[emp_id r := row_of_record r]> (employees w)
    else if String.eqb (action r) "DELETE" then delete (emp_id r) (employees w)
    else employees w.
Proof.
  unfold process_message. rewrite EmployeeFacts.from_json_to_json.
  destruct (String.eqb (action r) "INSERT"); [reflexivity |].
  destruct (String.eqb (action r) "UPDATE").
  - unfold _handle_update, execute_update. cbn [table].
    destruct (employees w !! emp_id r); reflexivity.
  - destruct (String.eqb (action r) "DELETE"); [| reflexivity].
    unfold _handle_delete, execute_delete. cbn [table].
    destruct (employees w !! emp_id r) eqn:E; cbn; [reflexivity |].
    symmetry. by apply delete_id.
Qed.

Lemma apply_stream_cons (r : CDCRecord) (ds : list CDCRecord) (w : world) :
  apply_stream (r :: ds) w = apply_stream ds (process_message (inr ()) (to_json r) w).
Proof. reflexivity. Qed.

Lemma apply_stream_nil (w : world) : apply_stream [] w = w.
Proof. reflexivity. Qed.


(** A message that does not decode is reported and changes nothing. *)
Lemma process_message_malformed (connect : exn + unit) (msg : string) (e : exn) (w : world) :
  from_json msg = inl e →
  process_message connect msg w
  = mk_world (employees w) (stdout w ++ [OutExn "Error processing message: " e])%list.
Proof. intros Hmsg. unfold process_message. by rewrite Hmsg. Qed.

(** With the destination database out of reach the event is announced,
    the exception is reported, and the table is the one before. *)
Lemma process_message_unreachable (e : exn) (r : CDCRecord) (w : world) :
  process_message (inl e) (to_json r) w
  = mk_world (employees w)
      (stdout w ++ [processing_line r; OutExn "Error processing message: " e])%list.
Proof. unfold process_message. by rewrite EmployeeFacts.from_json_to_json. Qed.

(** Polls without a message leave the world as it is. *)
Lemma consume_step_idle (f : string → world → world) (w : world) (text : string) :
  consume_step f w NoMessage = w ∧ consume_step f w (PollError true text) = w.
Proof. by split. Qed.

Lemma eqb_ne (a b : string) : a ≠ b → String.eqb a b = false.
Proof. intros H. by apply String.eqb_neq. Qed.

(** The Update of a key that the replica does not hold takes the
    fallback: the INSERT of its own values. *)
Lemma update_absent (u : CDCRecord) (w : world) :
  action u = "UPDATE" →
  employees w !! emp_id u = None →
  process_message (inr ()) (to_json u) w =
    mk_world (<[emp_id u := row_of_record u]> (employees w))
      (stdout w ++
       [processing_line u;
        Out ("  -> INSERT applied for emp_id=" +:+ str_int (emp_id u));
        Out ("  -> UPDATE: emp_id=" +:+ str_int (emp_id u)
             +:+ " not found, inserted instead")])%list.
Proof.
  intros Hact Habs. unfold process_message.
  rewrite EmployeeFacts.from_json_to_json, Hact. cbn [String.eqb Ascii.eqb Bool.eqb].
  unfold _handle_update, execute_update. cbn [table]. rewrite Habs. reflexivity.
Qed.

(** C2, amended: an Update whose key has no row in the replica inserts the
    row of its own snapshot (the fallback of [_handle_update]); a Create of
    the same key that is delivered after it overwrites that row, so the key
    ends with the Create's values, where the delivery in order ends with the
    Update's values. *)
Theorem update_fallback_then_create (c u : CDCRecord) (w : world) :
  action u = "UPDATE" →
  action c = "INSERT" →
  emp_id c = emp_id u →
  employees w !! emp_id u = None →
  employees (process_message (inr ()) (to_json u) w)
    = <[emp_id u := row_of_record u]> (employees w)
  ∧ employees (apply_stream [u; c] w) !! emp_id u = Some (row_of_record c)
  ∧ employees (apply_stream [c; u] w) !! emp_id u = Some (row_of_record u).
Proof.
  intros Hu Hc Hk Habs. split; [| split].
  - by rewrite update_absent.
  - rewrite !apply_stream_cons, !apply_stream_nil.
    rewrite (process_message_table c), Hc. cbn [String.eqb Ascii.eqb Bool.eqb].
    rewrite Hk. apply lookup_insert_eq.
  - rewrite !apply_stream_cons, !apply_stream_nil.
    rewrite (process_message_table u), Hu. cbn [String.eqb Ascii.eqb Bool.eqb].
    apply lookup_insert_eq.
Qed.

(** C3: a Create applied twice leaves the table that one application
    leaves, and so does a Delete. *)
Theorem create_delete_idempotent (r : CDCRecord) (w : world) :
  action r = "INSERT" ∨ action r = "DELETE" →
  employees (apply_stream [r; r] w)
  = employees (apply_stream [r] w).
Proof.
  intros Hact. rewrite !apply_stream_cons, !apply_stream_nil.
  rewrite !process_message_table.
  destruct Hact as [-> | ->]; cbn [String.eqb Ascii.eqb Bool.eqb].
  - apply insert_insert_eq.
  - apply delete_delete_eq.
Qed.

(** Every event of a dispatched action can be applied again without a
    change of the table. *)
Lemma dispatched_idempotent (r : CDCRecord) (w : world) :
  dispatched (action r) →
  employees (apply_stream [r; r] w) = employees (apply_stream [r] w).
Proof.
  intros Hact. rewrite !apply_stream_cons, !apply_stream_nil.
  rewrite !process_message_table.
  destruct Hact as [-> | [-> | ->]]; cbn [String.eqb Ascii.eqb Bool.eqb].
  - apply insert_insert_eq.
  - apply insert_insert_eq.
  - apply delete_delete_eq.
Qed.

(** C5: the Delete of a key without a row returns normally, as the lines
    it prints show, and the table is the one before. *)
Theorem delete_absent_noop (r : CDCRecord) (w : world) :
  action r = "DELETE" →
  employees w !! emp_id r = None →
  process_message (inr ()) (to_json r) w =
    mk_world (employees w)
      (stdout w ++
       [processing_line r;
        Out ("  -> DELETE: emp_id=" +:+ str_int (emp_id r)
             +:+ " not found (already deleted)")])%list.
Proof.
  intros Hact Habs. unfold process_message.
  rewrite EmployeeFacts.from_json_to_json, Hact. cbn [String.eqb Ascii.eqb Bool.eqb].
  unfold _handle_delete, execute_delete. cbn [table]. rewrite Habs. reflexivity.
Qed.

(** C8: an action other than the three that are dispatched is reported on
    the terminal, and the table is the one before. *)
Theorem unknown_action_skipped (r : CDCRecord) (w : world) :
  action r ≠ "INSERT" →
  action r ≠ "UPDATE" →
  action r ≠ "DELETE" →
  process_message (inr ()) (to_json r) w =
    mk_world (employees w)
      (stdout w ++ [processing_line r; Out ("Unknown action: " +:+ action r)])%list.
Proof.
  intros Hi Hu Hd. unfold process_message.
  rewrite EmployeeFacts.from_json_to_json.
  by rewrite (eqb_ne _ _ Hi), (eqb_ne _ _ Hu), (eqb_ne _ _ Hd).
Qed.

End ConsumerFacts.

(** ** The tailer *)
Module ProducerFacts.
Import Employee Producer.

#[local] Instance cdc_id_le_trans : Transitive cdc_id_le.
Proof. intros a b c. unfold cdc_id_le. lia. Qed.

#[local] Instance cdc_id_le_total : Total cdc_id_le.
Proof. intros a b. unfold cdc_id_le. lia. Qed.

Lemma cdc_id_record_of_row (row : fetched) : cdc_id (record_of_row row) = row.1.
Proof. reflexivity. Qed.

Lemma cdc_id_records (rows : list fetched) :
  cdc_id <$> (record_of_row <$> rows) = rows.*1.
Proof. rewrite <- list_fmap_compose. by apply list_fmap_ext. Qed.

(** The rows that the SELECT returns. *)
Lemma elem_of_select (t : gmap Z DbSetup.emp_cdc_row) (offset : Z) (row : fetched) :
  row ∈ select_emp_cdc t offset ↔ t !! row.1 = Some row.2 ∧ offset < row.1.
Proof.
  unfold select_emp_cdc.
  rewrite merge_sort_Permutation, list_elem_of_filter, elem_of_map_to_list'. tauto.
Qed.

Lemma NoDup_fst_filter {A B} (P : A * B → Prop) `{∀ x, Decision (P x)} (l : list (A * B)) :
  NoDup (l.*1) → NoDup ((filter P l).*1).
Proof.
  induction l as [|x l IH]; [done |].
  rewrite fmap_cons, NoDup_cons. intros [Hx Hl].
  rewrite filter_cons. destruct (decide (P x)); [| by apply IH].
  rewrite fmap_cons, NoDup_cons. split; [| by apply IH].
  intros Hin. apply Hx.
  apply list_elem_of_fmap in Hin as (y & -> & Hy).
  apply list_elem_of_filter in Hy as [_ Hy].
  apply list_elem_of_fmap. eauto.
Qed.

Lemma strictly_sorted (l : list fetched) :
  StronglySorted cdc_id_le l → NoDup (l.*1) → StronglySorted Z.lt (l.*1).
Proof.
  induction 1 as [|x l Hl IH Hx]; [constructor |].
  rewrite fmap_cons, NoDup_cons. intros [Hnin Hnd].
  constructor; [by apply IH |].
  apply Forall_forall. intros id Hid.
  apply list_elem_of_fmap in Hid as (y & -> & Hy).
  rewrite Forall_forall in Hx. specialize (Hx y Hy). unfold cdc_id_le in Hx.
  assert (x.1 ≠ y.1); [| lia].
  intros Heq. apply Hnin. rewrite Heq. apply list_elem_of_fmap. eauto.
Qed.

Lemma select_NoDup_fst (t : gmap Z DbSetup.emp_cdc_row) (offset : Z) :
  NoDup ((select_emp_cdc t offset).*1).
Proof.
  unfold select_emp_cdc. rewrite merge_sort_Permutation.
  apply NoDup_fst_filter, NoDup_fst_map_to_list.
Qed.

Lemma select_sorted_le (t : gmap Z DbSetup.emp_cdc_row) (offset : Z) :
  StronglySorted cdc_id_le (select_emp_cdc t offset).
Proof. apply StronglySorted_merge_sort; apply _. Qed.

(** ORDER BY on the primary key: the identifiers ascend strictly. *)
Lemma select_sorted (t : gmap Z DbSetup.emp_cdc_row) (offset : Z) :
  StronglySorted Z.lt ((select_emp_cdc t offset).*1).
Proof. apply strictly_sorted; [apply select_sorted_le | apply select_NoDup_fst]. Qed.

Lemma foldl_scan_row (rows : list fetched) (acc : list CDCRecord) (self : CDCDataHandler) :
  foldl scan_row (acc, self) rows =
    ((acc ++ (record_of_row <$> rows))%list,
     mkCDCDataHandler (max_offset (last_offset self) rows)).
Proof.
  revert acc self. induction rows as [|row rows IH]; intros acc [offset].
  - by rewrite app_nil_r.
  - cbn [foldl scan_row]. rewrite cdc_id_record_of_row. cbn [last_offset].
    destruct (Z.ltb_spec offset row.1) as [Hlt | Hge].
    + rewrite IH, <- app_assoc. cbn [last_offset max_offset foldl fmap list_fmap app].
      unfold max_offset. by rewrite Z.max_r by lia.
    + rewrite IH, <- app_assoc. cbn [last_offset max_offset foldl fmap list_fmap app].
      unfold max_offset. by rewrite Z.max_l by lia.
Qed.

Lemma max_offset_ge (rows : list fetched) (offset : Z) :
  offset ≤ max_offset offset rows ∧ Forall (λ row, row.1 ≤ max_offset offset rows) rows.
Proof.
  revert offset. induction rows as [|row rows IH]; intros offset; [by split |].
  cbn [max_offset foldl]. fold (max_offset (Z.max offset row.1) rows).
  destruct (IH (Z.max offset row.1)) as [H1 H2].
  split; [lia |]. constructor; [lia | done].
Qed.

Lemma max_offset_cases (rows : list fetched) (offset : Z) :
  (∃ row, row ∈ rows ∧ max_offset offset rows = row.1) ∨ max_offset offset rows = offset.
Proof.
  revert offset. induction rows as [|r rows IH]; intros offset; [by right |].
  cbn [max_offset foldl]. fold (max_offset (Z.max offset r.1) rows).
  destruct (IH (Z.max offset r.1)) as [(x & Hx & Heq) | Heq].
  - left. exists x. split; [by right | done].
  - rewrite Heq. destruct (Z.max_spec offset r.1) as [[_ ->] | [_ ->]].
    + left. exists r. split; [left | done].
    + by right.
Qed.

Lemma max_offset_elem (rows : list fetched) (offset : Z) :
  rows ≠ [] →
  Forall (λ row, offset < row.1) rows →
  ∃ row, row ∈ rows ∧ max_offset offset rows = row.1.
Proof.
  intros Hne Hall. destruct (max_offset_cases rows offset) as [? | Heq]; [done |].
  destruct rows as [|row rows]; [done |].
  apply Forall_cons in Hall as [Hrow _].
  destruct (max_offset_ge (row :: rows) offset) as [_ Hge].
  apply Forall_cons in Hge as [Hge _]. lia.
Qed.


(** A scan that reaches the database. *)
Lemma scan_inr (t : gmap Z DbSetup.emp_cdc_row) (self : CDCDataHandler) :
  get_new_cdc_records (inr t) self =
    (record_of_row <$> select_emp_cdc t (last_offset self),
     mkCDCDataHandler (max_offset (last_offset self) (select_emp_cdc t (last_offset self))),
     []).
Proof. unfold get_new_cdc_records. by rewrite foldl_scan_row. Qed.

(** One scan: ascending, above the offset at its start, and not above the
    offset at its end. *)
Lemma scan_batch (source : exn + gmap Z DbSetup.emp_cdc_row) (self : CDCDataHandler) :
  StronglySorted Z.lt (cdc_id <$> (get_new_cdc_records source self).1.1)
  ∧ Forall (λ r, last_offset self < cdc_id r) (get_new_cdc_records source self).1.1
  ∧ Forall (λ r, cdc_id r ≤ last_offset (get_new_cdc_records source self).1.2)
      (get_new_cdc_records source self).1.1
  ∧ last_offset self ≤ last_offset (get_new_cdc_records source self).1.2.
Proof.
  destruct source as [e | t].
  - cbn. repeat split; [constructor | constructor | constructor | lia].
  - rewrite scan_inr. cbn [fst snd last_offset].
    set (rows := select_emp_cdc t (last_offset self)).
    destruct (max_offset_ge rows (last_offset self)) as [Hge Hall].
    repeat split; [| | | done].
    + rewrite cdc_id_records. apply select_sorted.
    + apply Forall_fmap, Forall_forall. intros row Hrow.
      apply elem_of_select in Hrow as [_ Hlt]. exact Hlt.
    + apply Forall_fmap. exact Hall.
Qed.

(** The offset never falls, and it bounds what the cycles have returned. *)
Lemma poll_cycles_bound (sources : list (exn + gmap Z DbSetup.emp_cdc_row))
    (self : CDCDataHandler) :
  last_offset self ≤ last_offset (poll_cycles sources self).2
  ∧ Forall (λ r, cdc_id r ≤ last_offset (poll_cycles sources self).2)
      (concat (poll_cycles sources self).1).
Proof.
  revert self. induction sources as [|source sources IH]; intros self.
  - cbn. split; [lia | constructor].
  - cbn [poll_cycles fst snd concat].
    destruct (scan_batch source self) as (_ & _ & Hle & Hmono).
    destruct (IH (get_new_cdc_records source self).1.2) as [Hmono' Hall].
    split; [lia |]. apply Forall_app. split; [| done].
    eapply Forall_impl; [exact Hle |]. cbn. intros r Hr. lia.
Qed.

(** C4: in the scan that follows any run of earlier scans, the identifiers
    of the records ascend strictly, each of them is above the offset that the
    handler held when the scan started, and each of them is above every
    identifier returned by the earlier scans. *)
Theorem scan_ascends_above_watermark
    (earlier : list (exn + gmap Z DbSetup.emp_cdc_row))
    (source : exn + gmap Z DbSetup.emp_cdc_row) (self : CDCDataHandler) :
  let self_k := (poll_cycles earlier self).2 in
  let batch := (get_new_cdc_records source self_k).1.1 in
  StronglySorted Z.lt (cdc_id <$> batch)
  ∧ Forall (λ r, last_offset self_k < cdc_id r) batch
  ∧ Forall (λ r, Forall (λ r', cdc_id r' < cdc_id r)
                   (concat (poll_cycles earlier self).1)) batch.
Proof.
  intros self_k batch.
  destruct (scan_batch source self_k) as (Hsorted & Habove & _ & _).
  destruct (poll_cycles_bound earlier self) as [_ Hbound].
  repeat split; [done | done |].
  eapply Forall_impl; [exact Habove |]. cbn. intros r Hr.
  eapply Forall_impl; [exact Hbound |]. cbn. intros r' Hr'. subst self_k. lia.
Qed.

(** C6: a scan that reached the database returns the records of exactly
    the rows of the log above the offset it started with, and sets the
    offset to the greatest identifier among those rows: no row of the log
    lies above the new offset; when the log has a row above the old offset,
    the new offset is the identifier of such a row, which is a returned
    record that no returned record exceeds; when it has none, nothing is
    returned and the offset is the one before. *)
Theorem scan_sets_watermark_to_max (t : gmap Z DbSetup.emp_cdc_row) (self : CDCDataHandler) :
  let records := (get_new_cdc_records (inr t) self).1.1 in
  let self' := (get_new_cdc_records (inr t) self).1.2 in
  (∀ r, r ∈ records ↔
     ∃ id row, t !! id = Some row ∧ last_offset self < id ∧ r = record_of_row (id, row))
  ∧ (∀ id row, t !! id = Some row → id ≤ last_offset self')
  ∧ ((∃ id row, t !! id = Some row ∧ last_offset self < id) →
     ∃ id row, t !! id = Some row ∧ last_offset self < id ∧ last_offset self' = id)
  ∧ ((∀ id row, t !! id = Some row → id ≤ last_offset self) →
     records = [] ∧ last_offset self' = last_offset self)
  ∧ ((records = [] ∧ last_offset self' = last_offset self)
     ∨ (∃ r, r ∈ records ∧ last_offset self' = cdc_id r
             ∧ Forall (λ r', cdc_id r' ≤ cdc_id r) records)).
Proof.
  intros records self'. subst records self'. rewrite scan_inr. cbn [fst snd last_offset].
  set (rows := select_emp_cdc t (last_offset self)).
  assert (Habove : Forall (λ row : fetched, last_offset self < row.1) rows).
  { apply Forall_forall. intros row Hrow.
    apply elem_of_select in Hrow as [_ Hlt]. exact Hlt. }
  destruct (max_offset_ge rows (last_offset self)) as [Hmono Hge].
  split; [| split; [| split; [| split]]].
  - intros r. rewrite list_elem_of_fmap. split.
    + intros (row & -> & Hrow). apply elem_of_select in Hrow as [Hin Hlt].
      exists row.1, row.2. by destruct row.
    + intros (id & row & Hin & Hlt & ->). exists (id, row). split; [done |].
      by apply elem_of_select.
  - intros id row Hin. destruct (decide (last_offset self < id)) as [Hlt | Hle]; [| lia].
    assert (Hrow : (id, row) ∈ rows) by by apply elem_of_select.
    rewrite Forall_forall in Hge. apply (Hge _ Hrow).
  - intros (id & row & Hin & Hlt).
    assert (Hne : rows ≠ []).
    { intros Hnil. assert (Hrow : (id, row) ∈ rows) by by apply elem_of_select.
      rewrite Hnil in Hrow. by apply elem_of_nil in Hrow. }
    destruct (max_offset_elem rows (last_offset self) Hne Habove) as (row' & Hrow' & Hmax).
    apply elem_of_select in Hrow' as [Hin' Hlt'].
    exists row'.1, row'.2. by rewrite Hmax.
  - intros Hnone.
    assert (Hnil : rows = []).
    { destruct rows as [| row rows'] eqn:Hrows; [done |].
      assert (Hrow : row ∈ select_emp_cdc t (last_offset self)).
      { fold rows. rewrite Hrows. left. }
      apply elem_of_select in Hrow as [Hin Hlt]. specialize (Hnone _ _ Hin). lia. }
    by rewrite Hnil.
  - destruct (decide (rows = [])) as [Hnil | Hne].
    + left. by rewrite Hnil.
    + right.
      destruct (max_offset_elem rows (last_offset self) Hne Habove) as (row & Hrow & Hmax).
      exists (record_of_row row). split; [| split].
      * apply list_elem_of_fmap. eauto.
      * by rewrite cdc_id_record_of_row.
      * rewrite cdc_id_record_of_row, <- Hmax. by apply Forall_fmap.
Qed.

(** C7: a scan whose query raises returns nothing, prints the exception
    and leaves the handler as it was; the scan of the next cycle is the scan
    that the handler would have made without the failure, and it returns
    every row of the log above the offset. *)
Theorem failed_scan_keeps_watermark (e : exn) (self : CDCDataHandler) :
  get_new_cdc_records (inl e) self
    = ([], self, [OutExn "Error fetching CDC records: " e])
  ∧ ∀ t : gmap Z DbSetup.emp_cdc_row,
      poll_cycles [inl e; inr t] self
        = ([[]; (get_new_cdc_records (inr t) self).1.1],
           (get_new_cdc_records (inr t) self).1.2)
      ∧ ∀ (id : Z) (row : DbSetup.emp_cdc_row),
          t !! id = Some row → last_offset self < id →
          record_of_row (id, row) ∈ (get_new_cdc_records (inr t) self).1.1.
Proof.
  split; [reflexivity |]. intros t. split; [reflexivity |].
  intros id row Hrow Hlt. rewrite scan_inr. cbn [fst].
  apply list_elem_of_fmap. exists (id, row). split; [done |].
  by apply elem_of_select.
Qed.

End ProducerFacts.

(** ** The source database and its log *)
Module DbSetupFacts.
Import DbSetup Pipeline.

Lemma latest_unique (t : gmap Z emp_cdc_row) (k id1 id2 : Z) (row1 row2 : emp_cdc_row) :
  latest t k id1 row1 → latest t k id2 row2 → id1 = id2 ∧ row1 = row2.
Proof.
  intros (H1 & K1 & M1) (H2 & K2 & M2).
  assert (id1 = id2) as -> by (specialize (M1 _ _ H2 K2); specialize (M2 _ _ H1 K1); lia).
  split; [done | congruence].
Qed.

(** The step of the invariant: one key of [employees] changes and the
    trigger appends the row that describes the change. *)
Lemma source_inv_logged (db : source_db) (k : Z) (new : option (employees_row date))
    (snap : employees_row date) (act : string) :
  source_inv db →
  dispatched act →
  (act = "DELETE" → new = None) →
  (act ≠ "DELETE" → new = Some snap) →
  source_inv
    (insert_emp_cdc (mk_emp_cdc_row k snap act)
       (set_employees (partial_alter (λ _, new) k (employees db)) db)).
Proof.
  intros (Hseq & Hlog & Hkeys) Hact Hdel Hlive.
  unfold insert_emp_cdc, set_employees. cbn [employees emp_cdc cdc_id_seq].
  assert (Hfresh : emp_cdc db !! (cdc_id_seq db + 1) = None).
  { destruct (emp_cdc db !! (cdc_id_seq db + 1)) as [row|] eqn:E; [| done].
    apply Hlog in E. lia. }
  assert (Hnew : latest (<[cdc_id_seq db + 1 := mk_emp_cdc_row k snap act]> (emp_cdc db))
                   k (cdc_id_seq db + 1) (mk_emp_cdc_row k snap act)).
  { split; [apply lookup_insert_eq |]. split; [done |].
    intros id' row' Hrow' _.
    destruct (decide (id' = cdc_id_seq db + 1)) as [-> | Hne]; [lia |].
    rewrite lookup_insert_ne in Hrow' by done. apply Hlog in Hrow'. lia. }
  split; [cbn; lia |]. split.
  - cbn [emp_cdc cdc_id_seq]. intros id row Hrow.
    destruct (decide (id = cdc_id_seq db + 1)) as [-> | Hne].
    + rewrite lookup_insert_eq in Hrow. injection Hrow as <-. split; [lia | done].
    + rewrite lookup_insert_ne in Hrow by done. apply Hlog in Hrow as [? ?].
      split; [lia | done].
  - cbn [employees emp_cdc]. intros k'.
    destruct (decide (k' = k)) as [-> | Hk].
    + rewrite lookup_partial_alter_eq.
      destruct (decide (act = "DELETE")) as [Hd | Hd].
      * rewrite (Hdel Hd). right. by eexists _, _.
      * rewrite (Hlive Hd). by eexists _, _.
    + rewrite lookup_partial_alter_ne by done.
      assert (Hkeep : ∀ id row, latest (emp_cdc db) k' id row →
        latest (<[cdc_id_seq db + 1 := mk_emp_cdc_row k snap act]> (emp_cdc db)) k' id row).
      { intros id row (Hrow & Hkey & Hmax).
        pose proof (Hlog _ _ Hrow) as [Hid _].
        split; [by rewrite lookup_insert_ne by lia |]. split; [done |].
        intros id' row' Hrow' Hkey'.
        destruct (decide (id' = cdc_id_seq db + 1)) as [-> | Hne].
        - rewrite lookup_insert_eq in Hrow'. injection Hrow' as <-. done.
        - rewrite lookup_insert_ne in Hrow' by done. eauto. }
      specialize (Hkeys k'). destruct (employees db !! k') as [e|].
      * destruct Hkeys as (id & row & Hlat & Ha & Hs). eexists _, _. eauto.
      * destruct Hkeys as [Hnone | (id & row & Hlat & Ha)].
        -- left. intros id row Hrow.
           destruct (decide (id = cdc_id_seq db + 1)) as [-> | Hne].
           ++ rewrite lookup_insert_eq in Hrow. injection Hrow as <-. cbn. congruence.
           ++ rewrite lookup_insert_ne in Hrow by done. eauto.
        -- right. eexists _, _. eauto.
Qed.

Lemma source_inv_empty : source_inv empty_source.
Proof.
  split; [done |]. split.
  - intros id row Hrow. cbn in Hrow. by rewrite lookup_empty in Hrow.
  - intros k. cbn. rewrite lookup_empty. left. intros id row Hrow.
    cbn in Hrow. by rewrite lookup_empty in Hrow.
Qed.

Lemma source_inv_execute (st : statement) (db : source_db) :
  source_inv db → source_inv (execute st db).
Proof.
  intros Hinv. destruct st as [k row | k row | k]; cbn [execute];
    destruct (employees db !! k) as [old|] eqn:E; try done.
  - apply (source_inv_logged db k (Some row) row "INSERT");
      [done | by left | done | done].
  - apply (source_inv_logged db k (Some row) row "UPDATE");
      [done | by right; left | done | done].
  - apply (source_inv_logged db k None old "DELETE");
      [done | by right; right | done | done].
Qed.

Lemma source_inv_execute_all (sts : list statement) (db : source_db) :
  source_inv db → source_inv (execute_all sts db).
Proof.
  revert db. induction sts as [|st sts IH]; intros db Hinv; [done |].
  apply IH, source_inv_execute, Hinv.
Qed.

End DbSetupFacts.

(** ** The producer beside the statements: every row is returned once *)
Module RunFacts.
Import Employee Producer Pipeline.

(** Two ascending lists of rows of one table with the same members are
    the same list. *)
Lemma sorted_rows_unique (t : gmap Z DbSetup.emp_cdc_row) (l1 l2 : list fetched) :
  StronglySorted cdc_id_le l1 → StronglySorted cdc_id_le l2 →
  NoDup l1 → NoDup l2 →
  (∀ row, row ∈ l1 → t !! row.1 = Some row.2) →
  (∀ row, row ∈ l1 ↔ row ∈ l2) →
  l1 = l2.
Proof.
  intros Hs1 Hs2 Hd1 Hd2 Ht Hsame.
  apply (StronglySorted_unique_strong cdc_id_le); [| done | done |].
  - intros [id1 r1] [id2 r2] H1 H2%Hsame Hle Hge. unfold cdc_id_le in *. cbn in *.
    assert (id1 = id2) as -> by lia.
    apply Ht in H1, H2. cbn in *. congruence.
  - by apply NoDup_Permutation.
Qed.

Lemma StronglySorted_filter {A} (R : relation A) (P : A → Prop) `{∀ x, Decision (P x)}
    (l : list A) :
  StronglySorted R l → StronglySorted R (filter P l).
Proof.
  induction 1 as [|x l Hl IH Hx]; [constructor |].
  rewrite filter_cons. destruct (decide (P x)); [| done].
  constructor; [done |]. apply Forall_forall. intros y [_ Hy]%list_elem_of_filter.
  rewrite Forall_forall in Hx. by apply Hx.
Qed.

Lemma select_NoDup (t : gmap Z DbSetup.emp_cdc_row) (offset : Z) :
  NoDup (select_emp_cdc t offset).
Proof. apply (NoDup_fmap_1 fst), ProducerFacts.select_NoDup_fst. Qed.

Lemma elem_of_rows_upto (t : gmap Z DbSetup.emp_cdc_row) (offset : Z) (row : fetched) :
  row ∈ rows_upto t offset ↔ t !! row.1 = Some row.2 ∧ 0 < row.1 ≤ offset.
Proof.
  unfold rows_upto. rewrite list_elem_of_filter, ProducerFacts.elem_of_select. tauto.
Qed.

Lemma rows_upto_sorted (t : gmap Z DbSetup.emp_cdc_row) (offset : Z) :
  StronglySorted cdc_id_le (rows_upto t offset).
Proof. apply StronglySorted_filter, ProducerFacts.select_sorted_le. Qed.

Lemma rows_upto_NoDup (t : gmap Z DbSetup.emp_cdc_row) (offset : Z) :
  NoDup (rows_upto t offset).
Proof. apply NoDup_filter, select_NoDup. Qed.

(** A row that the trigger appends is above the offset and leaves the rows
    up to the offset as they are. *)
Lemma rows_upto_insert (t : gmap Z DbSetup.emp_cdc_row) (offset id : Z)
    (new : DbSetup.emp_cdc_row) :
  offset < id → rows_upto (<[id := new]> t) offset = rows_upto t offset.
Proof.
  intros Hlt.
  apply (sorted_rows_unique (<[id := new]> t));
    [apply rows_upto_sorted | apply rows_upto_sorted
    | apply rows_upto_NoDup | apply rows_upto_NoDup | |].
  - by intros row [? _]%elem_of_rows_upto.
  - intros row. rewrite !elem_of_rows_upto.
    destruct (decide (row.1 = id)) as [Heq | Hne]; [lia |].
    by rewrite lookup_insert_ne.
Qed.

(** A scan that reaches the database returns what lies between the old
    offset and the new one. *)
Lemma rows_upto_scan (t : gmap Z DbSetup.emp_cdc_row) (offset : Z) :
  0 ≤ offset →
  rows_upto t (max_offset offset (select_emp_cdc t offset))
  = (rows_upto t offset ++ select_emp_cdc t offset)%list.
Proof.
  intros Hpos.
  destruct (ProducerFacts.max_offset_ge (select_emp_cdc t offset) offset) as [Hge Hall].
  rewrite Forall_forall in Hall.
  apply (sorted_rows_unique t).
  - apply rows_upto_sorted.
  - apply StronglySorted_app_2;
      [| apply rows_upto_sorted | apply ProducerFacts.select_sorted_le].
    intros x1 x2 [_ H1]%elem_of_rows_upto [_ H2]%ProducerFacts.elem_of_select.
    unfold cdc_id_le. lia.
  - apply rows_upto_NoDup.
  - apply NoDup_app. split; [apply rows_upto_NoDup |]. split; [| apply select_NoDup].
    intros x [_ H1]%elem_of_rows_upto [_ H2]%ProducerFacts.elem_of_select. lia.
  - by intros row [? _]%elem_of_rows_upto.
  - intros row. rewrite elem_of_app, !elem_of_rows_upto, ProducerFacts.elem_of_select.
    split.
    + intros [Hrow [H0 Hle]]. destruct (decide (row.1 ≤ offset)); [left | right]; split;
        try done; lia.
    + intros [[Hrow ?] | [Hrow Hlt]]; (split; [done |]); [lia |].
      specialize (Hall row). rewrite ProducerFacts.elem_of_select in Hall.
      specialize (Hall (conj Hrow Hlt)). lia.
Qed.

(** At an offset that no identifier exceeds these are all the rows. *)
Lemma rows_upto_all (t : gmap Z DbSetup.emp_cdc_row) (offset : Z) :
  (∀ id row, t !! id = Some row → id ≤ offset) →
  rows_upto t offset = select_emp_cdc t 0.
Proof.
  intros Hall.
  apply (sorted_rows_unique t);
    [apply rows_upto_sorted | apply ProducerFacts.select_sorted_le
    | apply rows_upto_NoDup | apply select_NoDup | |].
  - by intros row [? _]%elem_of_rows_upto.
  - intros row. rewrite elem_of_rows_upto, ProducerFacts.elem_of_select.
    split; [tauto |]. intros [Hrow H0]. pose proof (Hall _ _ Hrow). split; [done | lia].
Qed.

(** A statement leaves the log as it is or appends one row at the next
    value of the sequence. *)
Lemma execute_log (st : DbSetup.statement) (db : DbSetup.source_db) :
  DbSetup.execute st db = db
  ∨ ∃ row, DbSetup.emp_cdc (DbSetup.execute st db)
             = <[DbSetup.cdc_id_seq db + 1 := row]> (DbSetup.emp_cdc db)
           ∧ DbSetup.cdc_id_seq (DbSetup.execute st db) = DbSetup.cdc_id_seq db + 1.
Proof.
  destruct st as [k row | k row | k]; cbn [DbSetup.execute];
    destruct (DbSetup.employees db !! k); auto; right; by eexists.
Qed.

Lemma run_inv_start : run_inv DbSetup.empty_source new_handler [].
Proof.
  split; [apply DbSetupFacts.source_inv_empty |]. split; [done |].
  cbn [DbSetup.emp_cdc DbSetup.empty_source last_offset new_handler].
  destruct (rows_upto ∅ 0) as [|row l] eqn:E; [done |].
  assert (Hrow : row ∈ rows_upto ∅ 0) by (rewrite E; left).
  apply elem_of_rows_upto in Hrow as [Hrow _]. by rewrite lookup_empty in Hrow.
Qed.

Lemma run_inv_exec (st : DbSetup.statement) (db : DbSetup.source_db)
    (self : CDCDataHandler) (sent : list CDCRecord) :
  run_inv db self sent → run_inv (DbSetup.execute st db) self sent.
Proof.
  intros (Hinv & Hoff & Hsent).
  split; [by apply DbSetupFacts.source_inv_execute |].
  destruct (execute_log st db) as [-> | (row & Hlog & Hseq)]; [done |].
  rewrite Hlog, Hseq. split; [lia |].
  by rewrite rows_upto_insert by lia.
Qed.

Lemma max_offset_le (rows : list fetched) (offset bound : Z) :
  offset ≤ bound → Forall (λ row, row.1 ≤ bound) rows → max_offset offset rows ≤ bound.
Proof.
  intros Hoff Hall.
  destruct (ProducerFacts.max_offset_cases rows offset) as [(row & Hrow & ->) | ->]; [| done].
  rewrite Forall_forall in Hall. by apply Hall.
Qed.

Lemma run_inv_cycle (failure : option exn) (db : DbSetup.source_db)
    (self : CDCDataHandler) (sent : list CDCRecord) :
  run_inv db self sent →
  run_inv db
    (get_new_cdc_records
       (match failure with
        | Some e => inl e
        | None => inr (DbSetup.emp_cdc db)
        end) self).1.2
    (sent ++ (get_new_cdc_records
                (match failure with
                 | Some e => inl e
                 | None => inr (DbSetup.emp_cdc db)
                 end) self).1.1).
Proof.
  intros (Hinv & Hoff & Hsent). destruct failure as [e|].
  - cbn. by rewrite app_nil_r.
  - rewrite ProducerFacts.scan_inr. cbn [fst snd last_offset].
    split; [done |]. split.
    + destruct (ProducerFacts.max_offset_ge
                  (select_emp_cdc (DbSetup.emp_cdc db) (last_offset self))
                  (last_offset self)) as [Hge _].
      cbn [last_offset]. split; [lia |]. apply max_offset_le; [lia |].
      apply Forall_forall. intros row [Hrow _]%ProducerFacts.elem_of_select.
      destruct Hinv as (_ & Hlog & _). apply Hlog in Hrow. lia.
    + cbn [last_offset]. rewrite rows_upto_scan by lia. by rewrite fmap_app, Hsent.
Qed.

Lemma run_inv_run (steps : list source_step) (db : DbSetup.source_db)
    (self : CDCDataHandler) (sent : list CDCRecord) :
  run_inv db self sent →
  run_inv (run steps db self sent).1.1 (run steps db self sent).1.2
    (run steps db self sent).2.
Proof.
  revert db self sent. induction steps as [|[st | failure] steps IH];
    intros db self sent Hinv; cbn [run]; [done | |].
  - by apply IH, run_inv_exec.
  - by apply IH, run_inv_cycle.
Qed.

Lemma run_app (steps1 steps2 : list source_step) (db : DbSetup.source_db)
    (self : CDCDataHandler) (sent : list CDCRecord) :
  run (steps1 ++ steps2) db self sent
  = run steps2 (run steps1 db self sent).1.1 (run steps1 db self sent).1.2
      (run steps1 db self sent).2.
Proof.
  revert db self sent. induction steps1 as [|[st | failure] steps1 IH];
    intros db self sent; cbn [run app]; [done | by rewrite IH | by rewrite IH].
Qed.

(** Whatever statements and polling cycles came before, failed cycles
    among them: after a cycle that reaches the database, the records that
    the cycles have returned are the change events of the source database,
    each once and in the order of the log. *)
Lemma run_returns_change_events (steps : list source_step) :
  (run (steps ++ [Cycle None]) DbSetup.empty_source new_handler []).2
  = change_events (run (steps ++ [Cycle None]) DbSetup.empty_source new_handler []).1.1.
Proof.
  rewrite run_app.
  pose proof (run_inv_run steps _ _ _ run_inv_start) as (Hinv & Hoff & Hsent).
  destruct (run steps DbSetup.empty_source new_handler []) as [[db self] sent].
  cbn [fst snd] in *. cbn [run]. cbn [fst snd].
  unfold change_events. rewrite !ProducerFacts.scan_inr. cbn [fst snd last_offset new_handler].
  rewrite Hsent, <- fmap_app, <- rows_upto_scan by lia. f_equal.
  apply rows_upto_all. intros id row Hrow.
  set (rows := select_emp_cdc (DbSetup.emp_cdc db) (last_offset self)).
  destruct (ProducerFacts.max_offset_ge rows (last_offset self)) as [Hge Hall].
  destruct (decide (id ≤ last_offset self)) as [Hle | Hgt]; [lia |].
  rewrite Forall_forall in Hall. apply (Hall (id, row)).
  apply ProducerFacts.elem_of_select. split; [done | cbn; lia].
Qed.

End RunFacts.

(** ** From the source to the replica *)
Module PipelineFacts.
Import Employee Pipeline.

Lemma date_str_nonempty (d : date) : String.eqb (date_str d) "" = false.
Proof. unfold date_str. by destruct (zfill 4 (str_nat (year d))). Qed.

(** The values that the consumer writes for a record of the producer. *)
Lemma row_of_record_of_row (row : Producer.fetched) :
  Consumer.row_of_record (Producer.record_of_row row) = mirror (DbSetup.snapshot row.2).
Proof.
  unfold Consumer.row_of_record, Producer.record_of_row, mirror. cbn.
  destruct (DbSetup.dob (DbSetup.snapshot row.2)) as [d|]; cbn; [| done].
  by rewrite date_str_nonempty.
Qed.

Lemma change_events_elem (db : DbSetup.source_db) (r : CDCRecord) :
  source_inv db →
  r ∈ change_events db ↔
    ∃ id row, DbSetup.emp_cdc db !! id = Some row ∧ r = Producer.record_of_row (id, row).
Proof.
  intros (_ & Hlog & _). unfold change_events.
  rewrite ProducerFacts.scan_inr. cbn [fst Producer.last_offset Producer.new_handler].
  rewrite list_elem_of_fmap. split.
  - intros ([id row] & -> & Hrow). apply ProducerFacts.elem_of_select in Hrow as [Hrow _].
    by exists id, row.
  - intros (id & row & Hrow & ->). exists (id, row). split; [done |].
    apply ProducerFacts.elem_of_select. split; [done |]. apply Hlog in Hrow. cbn. lia.
Qed.

(** One message of a dispatched action settles its key and no other. *)
Lemma process_message_lookup (r : CDCRecord) (w : Consumer.world) (k : Z) :
  dispatched (action r) →
  Consumer.employees (Consumer.process_message (inr ()) (to_json r) w) !! k
  = if emp_id r =? k then effect r else Consumer.employees w !! k.
Proof.
  intros Hact. rewrite ConsumerFacts.process_message_table. unfold effect.
  destruct (Z.eqb_spec (emp_id r) k) as [-> | Hne];
    destruct Hact as [-> | [-> | ->]]; cbn [String.eqb Ascii.eqb Bool.eqb];
    by rewrite ?lookup_insert_eq, ?lookup_delete_eq, ?lookup_insert_ne, ?lookup_delete_ne.
Qed.

(** After a stream the row of a key is the one that the last event of the
    key leaves. *)
Lemma consume_lookup (ds : list CDCRecord) (w : Consumer.world) (k : Z) :
  Forall (λ r, dispatched (action r)) ds →
  Consumer.employees (apply_stream ds w) !! k
  = match last_for k ds with
    | Some r => effect r
    | None => Consumer.employees w !! k
    end.
Proof.
  revert w. induction ds as [|r ds IH]; intros w Hall; [done |].
  apply Forall_cons in Hall as [Hr Hall].
  rewrite ConsumerFacts.apply_stream_cons, IH by done. cbn [last_for].
  destruct (last_for k ds); [done |].
  rewrite process_message_lookup by done. by destruct (emp_id r =? k).
Qed.

Lemma last_for_Some (k : Z) (ds : list CDCRecord) (r : CDCRecord) :
  last_for k ds = Some r → r ∈ ds ∧ emp_id r = k.
Proof.
  induction ds as [|a ds IH]; [done |]. cbn [last_for].
  destruct (last_for k ds) as [x|].
  - intros [= ->]. destruct IH as [? ?]; [done |]. split; [by right | done].
  - destruct (Z.eqb_spec (emp_id a) k); [| done]. intros [= ->]. split; [left | done].
Qed.

Lemma last_for_None (k : Z) (ds : list CDCRecord) :
  last_for k ds = None → ∀ r, r ∈ ds → emp_id r ≠ k.
Proof.
  induction ds as [|a ds IH]; [by intros _ r ?%not_elem_of_nil |]. cbn [last_for].
  destruct (last_for k ds) as [x|]; [done |].
  destruct (Z.eqb_spec (emp_id a) k); [done |].
  intros _ r [-> | Hr]%elem_of_cons; [done | by apply IH].
Qed.

(** In a stream that keeps the per-key order, the last event of a key has
    the largest identifier among the events of the key. *)
Lemma last_for_max (k : Z) (ds : list CDCRecord) (r : CDCRecord) :
  key_ordered ds = true →
  last_for k ds = Some r →
  ∀ r', r' ∈ ds → emp_id r' = k → cdc_id r' ≤ cdc_id r.
Proof.
  induction ds as [|a ds IH]; [done |]. cbn [key_ordered last_for].
  intros [Hhead Htail]%andb_true_iff Hlast r' Hr' Hk.
  destruct (last_for k ds) as [x|] eqn:Elast.
  - injection Hlast as ->.
    apply elem_of_cons in Hr' as [-> | Hr']; [| by apply IH].
    destruct (last_for_Some _ _ _ Elast) as [Hin Hkr].
    rewrite forallb_forall in Hhead.
    specialize (Hhead r). rewrite <- list_elem_of_In in Hhead. specialize (Hhead Hin).
    rewrite Hk, Hkr, Z.eqb_refl in Hhead. cbn in Hhead. lia.
  - destruct (Z.eqb_spec (emp_id a) k); [| done]. injection Hlast as ->.
    apply elem_of_cons in Hr' as [-> | Hr']; [lia |].
    by destruct (last_for_None _ _ Elast r' Hr').
Qed.

Lemma delivery_of_spec (events delivered : list CDCRecord) :
  delivery_of events delivered = true →
  (∀ r, r ∈ delivered ↔ r ∈ events) ∧ key_ordered delivered = true.
Proof.
  unfold delivery_of. rewrite !andb_true_iff, !forallb_forall.
  intros [[Hall Hsub] Hord]. split; [| done].
  intros r. rewrite !list_elem_of_In. split; intros Hr.
  - specialize (Hsub r Hr). apply bool_decide_eq_true in Hsub.
    by apply list_elem_of_In.
  - specialize (Hall r Hr). apply bool_decide_eq_true in Hall.
    by apply list_elem_of_In.
Qed.

Lemma elem_of_forallb {A} (f : A → bool) (l : list A) :
  forallb f l = true ↔ ∀ x, x ∈ l → f x = true.
Proof. rewrite forallb_forall. by setoid_rewrite list_elem_of_In. Qed.

Lemma settles_spec (events delivered : list CDCRecord) :
  settles events delivered = true →
  (∀ r, r ∈ delivered → r ∈ events)
  ∧ (∀ e, e ∈ events →
       ∃ l, last_for (emp_id e) delivered = Some l ∧ cdc_id e ≤ cdc_id l).
Proof.
  unfold settles. rewrite andb_true_iff, !elem_of_forallb. intros [Hsub Hlast]. split.
  - intros r Hr. specialize (Hsub r Hr). by apply bool_decide_eq_true in Hsub.
  - intros e He. specialize (Hlast e He).
    destruct (last_for (emp_id e) delivered) as [l|]; [| done].
    exists l. split; [done | lia].
Qed.

(** A delivery in per-key order settles every key. *)
Lemma delivery_settles (events delivered : list CDCRecord) :
  delivery_of events delivered = true → settles events delivered = true.
Proof.
  intros [Hsame Hord]%delivery_of_spec.
  unfold settles. rewrite andb_true_iff, !elem_of_forallb. split.
  - intros r Hr. apply bool_decide_eq_true. by apply Hsame.
  - intros e He. apply Hsame in He.
    destruct (last_for (emp_id e) delivered) as [l|] eqn:Elast.
    + apply Z.leb_le. by apply (last_for_max _ _ _ Hord Elast).
    + by destruct (last_for_None _ _ Elast e He).
Qed.

(** The delivered events settle every key as the source has it. *)
Lemma replica_lookup (db : DbSetup.source_db) (delivered : list CDCRecord) (k : Z) :
  source_inv db →
  settles (change_events db) delivered = true →
  Consumer.employees (apply_stream delivered Consumer.empty_world) !! k
  = mirror <$> (DbSetup.employees db !! k).
Proof.
  intros Hinv [Hsub Hlast]%settles_spec.
  pose proof Hinv as (_ & Hlog & Hkeys).
  pose proof (change_events_elem db) as Hev.
  rewrite consume_lookup.
  2:{ apply Forall_forall. intros r Hr.
      apply Hsub, Hev in Hr as (id & row & Hrow & ->); [| done].
      by destruct (Hlog _ _ Hrow). }
  specialize (Hkeys k).
  destruct (last_for k delivered) as [r|] eqn:Elast.
  - destruct (last_for_Some _ _ _ Elast) as [Hr Hk].
    apply Hsub, Hev in Hr as (id & row & Hrow & ->); [| done]. cbn in Hk.
    assert (Hlat : latest (DbSetup.emp_cdc db) k id row).
    { split; [done |]. split; [done |]. intros id' row' Hrow' Hk'.
      destruct (Hlast (Producer.record_of_row (id', row'))) as (l & Hl & Hle).
      { apply Hev; [done |]. eauto. }
      cbn in Hl. rewrite Hk', Elast in Hl. injection Hl as <-. exact Hle. }
    unfold effect. rewrite row_of_record_of_row. cbn.
    destruct (DbSetup.employees db !! k) as [e|].
    + destruct Hkeys as (id2 & row2 & Hlat2 & Hact & <-).
      destruct (DbSetupFacts.latest_unique _ _ _ _ _ _ Hlat Hlat2) as [_ <-].
      by rewrite (ConsumerFacts.eqb_ne _ _ Hact).
    + destruct Hkeys as [Hnone | (id2 & row2 & Hlat2 & Hact)].
      * by destruct (Hnone _ _ Hrow).
      * destruct (DbSetupFacts.latest_unique _ _ _ _ _ _ Hlat Hlat2) as [_ <-].
        by rewrite Hact.
  - cbn. rewrite lookup_empty.
    destruct (DbSetup.employees db !! k) as [e|]; [| done].
    destruct Hkeys as (id & row & (Hrow & Hk & _) & _).
    destruct (Hlast (Producer.record_of_row (id, row))) as (l & Hl & _).
    { apply Hev; [done |]. eauto. }
    cbn in Hl. rewrite Hk, Elast in Hl. done.
Qed.

(** The replica has the source's rows after every stream that settles the
    keys: the per-key order is not needed before the last arrival of a key. *)
Lemma replica_converges_settled (sts : list DbSetup.statement) (delivered : list CDCRecord) :
  settles (change_events (DbSetup.execute_all sts DbSetup.empty_source)) delivered = true →
  Consumer.employees (apply_stream delivered Consumer.empty_world)
  = mirror <$> DbSetup.employees (DbSetup.execute_all sts DbSetup.empty_source).
Proof.
  intros Hdel. apply map_eq. intros k. rewrite lookup_fmap.
  apply replica_lookup; [| done].
  apply DbSetupFacts.source_inv_execute_all, DbSetupFacts.source_inv_empty.
Qed.

(** C1: for every sequence of statements on the source and every delivery
    of its change events that keeps the per-key order (with repetitions and
    with any interleaving of the keys), the apply engine, started on an
    empty replica, ends with the source's rows: every key has the values of
    its source row, and a key without a source row has none. *)
Theorem replica_converges (sts : list DbSetup.statement) (delivered : list CDCRecord) :
  delivery_of (change_events (DbSetup.execute_all sts DbSetup.empty_source)) delivered = true →
  Consumer.employees (apply_stream delivered Consumer.empty_world)
  = mirror <$> DbSetup.employees (DbSetup.execute_all sts DbSetup.empty_source).
Proof. intros Hdel. by apply replica_converges_settled, delivery_settles. Qed.

(** Any two deliveries of the same change events end in the same replica. *)
Corollary deliveries_agree (sts : list DbSetup.statement) (d1 d2 : list CDCRecord) :
  delivery_of (change_events (DbSetup.execute_all sts DbSetup.empty_source)) d1 = true →
  delivery_of (change_events (DbSetup.execute_all sts DbSetup.empty_source)) d2 = true →
  Consumer.employees (apply_stream d1 Consumer.empty_world)
  = Consumer.employees (apply_stream d2 Consumer.empty_world).
Proof.
  intros H1 H2.
  rewrite (replica_converges_settled sts d1), (replica_converges_settled sts d2);
    [done | by apply delivery_settles | by apply delivery_settles].
Qed.

(** C9, amended: the event that the tailer produces for the log row of a
    DELETE carries the whole row of attribute values, namely the values that
    the deleted row had, which the trigger copies from OLD. *)
Theorem delete_event_carries_old_row (sts : list DbSetup.statement) (k : Z)
    (old : DbSetup.employees_row date) :
  let db := DbSetup.execute_all sts DbSetup.empty_source in
  let db' := DbSetup.execute (DbSetup.Delete k) db in
  DbSetup.employees db !! k = Some old →
  ∃ r, r ∈ change_events db' ∧ action r = "DELETE" ∧ emp_id r = k
       ∧ cdc_id r = DbSetup.cdc_id_seq db'
       ∧ Consumer.row_of_record r = mirror old.
Proof.
  intros db db' Hold.
  assert (Hinv : source_inv db').
  { apply DbSetupFacts.source_inv_execute, DbSetupFacts.source_inv_execute_all,
      DbSetupFacts.source_inv_empty. }
  subst db'. cbn [DbSetup.execute] in *. rewrite Hold in *.
  exists (Producer.record_of_row
            (DbSetup.cdc_id_seq db + 1, DbSetup.mk_emp_cdc_row k old "DELETE")).
  split; [| by rewrite row_of_record_of_row].
  apply change_events_elem; [done |]. eexists _, _. split; [| done].
  cbn. apply lookup_insert_eq.
Qed.

End PipelineFacts.

(** ** The claims on concrete runs *)
Module ScenarioFacts.
Import Employee Pipeline Scenario.

Example change_events_statements :
  change_events (DbSetup.execute_all statements DbSetup.empty_source) = [e1; e2; e3; e4; e5].
Proof. vm_compute. reflexivity. Qed.

Example to_json_e1 : to_json e1 = e1_text ∧ Producer.produce e1 = ("1", e1_text).
Proof. split; reflexivity. Qed.

(** The cycles return [e1; e2], nothing, [e3; e4; e5] and nothing: every
    event once, the failed cycle included. *)
Example poll_cycles_statements :
  (run steps DbSetup.empty_source Producer.new_handler []).2 = [e1; e2; e3; e4; e5]
  ∧ Producer.last_offset (run steps DbSetup.empty_source Producer.new_handler []).1.2 = 5.
Proof. split; vm_compute; reflexivity. Qed.

(** The concrete scenario of the specification: John arrives, then his
    salary is 85000, and the deleted key 3 has no row. *)
Example replica_after_statements :
  Consumer.employees (apply_stream [e1; e2; e3; e4; e5] Consumer.empty_world)
  = <[1 := mirror john_raised]> (<[2 := mirror jane]> ∅).
Proof. vm_compute. reflexivity. Qed.

(** A stream that replays the log from the third event on is no delivery
    in per-key order, but it settles every key. *)
Example replay_settles :
  delivery_of [e1; e2; e3; e4; e5] [e1; e2; e3; e4; e5; e3; e4; e5] = false
  ∧ settles [e1; e2; e3; e4; e5] [e1; e2; e3; e4; e5; e3; e4; e5] = true.
Proof. split; vm_compute; reflexivity. Qed.

(** A repetition that arrives after a later event of its key is no
    delivery in per-key order, and it brings the deleted row back. *)
Example late_repetition_resurrects :
  delivery_of [e3; e5] [e3; e5; e3] = false
  ∧ Consumer.employees (apply_stream [e3; e5; e3] Consumer.empty_world) !! 3
    = Some (mirror bob).
Proof. split; vm_compute; reflexivity. Qed.

Lemma replica_converges_witness :
  Consumer.employees (apply_stream delivered Consumer.empty_world)
  = mirror <$> DbSetup.employees (DbSetup.execute_all statements DbSetup.empty_source).
Proof. apply (PipelineFacts.replica_converges statements delivered). vm_compute. reflexivity. Defined.

(** C2 as stated fails: with the Update delivered before its Create, key 1
    ends with salary 1000, and in order it ends with salary 2000. *)
Lemma update_before_create_ends_stale :
  DbSetup.salary <$>
    (Consumer.employees
       (apply_stream [update_2000; create_1000] Consumer.empty_world) !! 1)
  = Some (Some 1000)
  ∧ DbSetup.salary <$>
      (Consumer.employees
         (apply_stream [create_1000; update_2000] Consumer.empty_world) !! 1)
    = Some (Some 2000).
Proof. split; vm_compute; reflexivity. Qed.

Lemma update_fallback_then_create_witness :
  Consumer.employees
    (Consumer.process_message (inr ()) (to_json update_2000) Consumer.empty_world)
    = <[emp_id update_2000 := Consumer.row_of_record update_2000]>
        (Consumer.employees Consumer.empty_world)
  ∧ Consumer.employees
      (apply_stream [update_2000; create_1000] Consumer.empty_world)
      !! emp_id update_2000 = Some (Consumer.row_of_record create_1000)
  ∧ Consumer.employees
      (apply_stream [create_1000; update_2000] Consumer.empty_world)
      !! emp_id update_2000 = Some (Consumer.row_of_record update_2000).
Proof.
  apply (ConsumerFacts.update_fallback_then_create create_1000 update_2000 Consumer.empty_world);
    reflexivity.
Defined.

Lemma create_delete_idempotent_witness :
  Consumer.employees (apply_stream [e1; e1] two_rows)
  = Consumer.employees (apply_stream [e1] two_rows)
  ∧ Consumer.employees (apply_stream [delete_99; delete_99] two_rows)
    = Consumer.employees (apply_stream [delete_99] two_rows).
Proof.
  split.
  - apply (ConsumerFacts.create_delete_idempotent e1 two_rows). left. reflexivity.
  - apply (ConsumerFacts.create_delete_idempotent delete_99 two_rows). right. reflexivity.
Defined.

Lemma delete_absent_noop_witness :
  Consumer.process_message (inr ()) (to_json delete_99) two_rows =
    Consumer.mk_world (Consumer.employees two_rows)
      (Consumer.stdout two_rows ++
       [Consumer.processing_line delete_99;
        Out ("  -> DELETE: emp_id=" +:+ str_int (emp_id delete_99)
             +:+ " not found (already deleted)")])%list.
Proof. apply (ConsumerFacts.delete_absent_noop delete_99 two_rows); reflexivity. Defined.

Lemma unknown_action_skipped_witness :
  Consumer.process_message (inr ()) (to_json truncate_1) two_rows =
    Consumer.mk_world (Consumer.employees two_rows)
      (Consumer.stdout two_rows
       ++ [Consumer.processing_line truncate_1; Out ("Unknown action: " +:+ action truncate_1)])%list.
Proof. apply (ConsumerFacts.unknown_action_skipped truncate_1 two_rows); discriminate. Defined.

(** C9 as stated fails: the event of the DELETE of key 3 carries Bob's
    values. *)
Lemma delete_event_has_snapshot :
  e5 ∈ change_events (DbSetup.execute_all statements DbSetup.empty_source)
  ∧ action e5 = "DELETE"
  ∧ first_name e5 = Some "Bob" ∧ salary e5 = Some 68000
  ∧ ¬ no_snapshot e5.
Proof.
  split; [vm_compute; by do 4 right; left |].
  repeat split; try reflexivity. intros (H & _). discriminate H.
Qed.

Lemma delete_event_carries_old_row_witness :
  ∃ r, r ∈ change_events
             (DbSetup.execute (DbSetup.Delete 3)
                (DbSetup.execute_all [DbSetup.Insert 3 bob] DbSetup.empty_source))
       ∧ action r = "DELETE" ∧ emp_id r = 3
       ∧ cdc_id r = DbSetup.cdc_id_seq
                      (DbSetup.execute (DbSetup.Delete 3)
                         (DbSetup.execute_all [DbSetup.Insert 3 bob] DbSetup.empty_source))
       ∧ Consumer.row_of_record r = mirror bob.
Proof.
  apply (PipelineFacts.delete_event_carries_old_row [DbSetup.Insert 3 bob] 3 bob).
  reflexivity.
Defined.

End ScenarioFacts.

(** ** The class [Employee] and the keyword call of [CDCRecord] *)
Module EmployeeClassFacts.
Import Notions.

Lemma bind_kwargs_employee (e : EmployeeClass.Employee) :
  EmployeeClass.bind_kwargs EmployeeClass.Employee_default (EmployeeClass.self_dict e) = Some e.
Proof. destruct e as [a [b|] [c|] d [f|] [g|]]; reflexivity. Qed.

(** X1: decoding the JSON text of an [Employee] gives the object back. *)
Theorem employee_round_trip (e : EmployeeClass.Employee) :
  EmployeeClass.from_json (EmployeeClass.to_json e) = inr e.
Proof.
  unfold EmployeeClass.from_json, EmployeeClass.to_json.
  by rewrite JsonFacts.loads_dumps, bind_kwargs_employee.
Qed.

(** X2: the text of a [CDCRecord] is no text of an [Employee]: its first
    member, [cdc_id], names no parameter of [Employee.__init__], and the
    call raises a TypeError. *)
Theorem employee_rejects_cdc_record (r : Employee.CDCRecord) :
  EmployeeClass.from_json (Employee.to_json r) = inl TypeError.
Proof.
  unfold EmployeeClass.from_json, Employee.to_json.
  rewrite JsonFacts.loads_dumps. by destruct r.
Qed.

Lemma bind_kwargs_of_employee (e : EmployeeClass.Employee) :
  Employee.bind_kwargs Employee.CDCRecord_default (EmployeeClass.self_dict e)
  = Some (record_of_employee e).
Proof. destruct e as [a [b|] [c|] d [f|] [g|]]; reflexivity. Qed.

(** X3: the text of an [Employee] decodes as a [CDCRecord] that keeps the
    defaults of the two parameters the text does not mention, [cdc_id] 0 and
    the empty [action]; the consumer reports that action as unknown and
    leaves the table as it is. *)
Theorem employee_text_is_skipped (e : EmployeeClass.Employee) (w : Consumer.world) :
  Employee.from_json (EmployeeClass.to_json e) = inr (record_of_employee e)
  ∧ Consumer.process_message (inr ()) (EmployeeClass.to_json e) w
    = Consumer.mk_world (Consumer.employees w)
        (Consumer.stdout w
         ++ [Consumer.processing_line (record_of_employee e); Out "Unknown action: "])%list.
Proof.
  assert (Hdec : Employee.from_json (EmployeeClass.to_json e) = inr (record_of_employee e)).
  { unfold Employee.from_json, EmployeeClass.to_json.
    by rewrite JsonFacts.loads_dumps, bind_kwargs_of_employee. }
  split; [done |]. unfold Consumer.process_message. by rewrite Hdec.
Qed.




End EmployeeClassFacts.

(** ** More on the tailer *)
Module ProducerMoreFacts.
Import Employee Producer Pipeline.

Lemma str_int_inj (a b : Z) : str_int a = str_int b → a = b.
Proof.
  intros Heq.
  assert (Hnd : Json.no_digit "") by reflexivity.
  pose proof (JsonFacts.scan_number_int a "" Hnd) as Ha.
  pose proof (JsonFacts.scan_number_int b "" Hnd) as Hb.
  rewrite Heq, Hb in Ha. by injection Ha.
Qed.

(** X5: two records get the same Kafka key exactly when they have the same
    [emp_id], so the events of one employee share a partition. *)
Theorem produce_key_iff (a b : CDCRecord) :
  (produce a).1 = (produce b).1 ↔ emp_id a = emp_id b.
Proof.
  unfold produce. cbn [fst]. split; [apply str_int_inj | by intros ->].
Qed.

(** X6: whatever statements and polling cycles came before, failed cycles
    among them, after a cycle that reaches the database the records that
    all the cycles have returned are the rows of the log: every row, no row
    twice, in strictly ascending [cdc_id]. *)
Theorem cycles_return_log_once (steps : list source_step) :
  StronglySorted Z.lt
    (cdc_id <$> (run (steps ++ [Cycle None]) DbSetup.empty_source new_handler []).2)
  ∧ ∀ r, r ∈ (run (steps ++ [Cycle None]) DbSetup.empty_source new_handler []).2
         ↔ ∃ id row,
             DbSetup.emp_cdc
               (run (steps ++ [Cycle None]) DbSetup.empty_source new_handler []).1.1
               !! id = Some row
             ∧ r = record_of_row (id, row).
Proof.
  rewrite RunFacts.run_returns_change_events.
  pose proof (RunFacts.run_inv_run (steps ++ [Cycle None]) _ _ _ RunFacts.run_inv_start)
    as (Hinv & _ & _).
  destruct (run (steps ++ [Cycle None]) DbSetup.empty_source new_handler [])
    as [[db self] sent].
  cbn [fst snd] in *. split.
  - unfold change_events. rewrite ProducerFacts.scan_inr. cbn [fst].
    rewrite ProducerFacts.cdc_id_records. apply ProducerFacts.select_sorted.
  - intros r. by apply PipelineFacts.change_events_elem.
Qed.

(** X7: over any polling cycles the offset of the handler does not fall,
    and at the end it is at least the [cdc_id] of every record returned. *)
Theorem offset_never_falls (sources : list (exn + gmap Z DbSetup.emp_cdc_row))
    (self : CDCDataHandler) :
  last_offset self ≤ last_offset (poll_cycles sources self).2
  ∧ Forall (λ r, cdc_id r ≤ last_offset (poll_cycles sources self).2)
      (concat (poll_cycles sources self).1).
Proof. apply ProducerFacts.poll_cycles_bound. Qed.

(** X8: a scan of a log that has not grown since the scan before returns
    no record, prints nothing and leaves the handler as it is. *)
Theorem rescan_returns_nothing (t : gmap Z DbSetup.emp_cdc_row) (self : CDCDataHandler) :
  get_new_cdc_records (inr t) (get_new_cdc_records (inr t) self).1.2
  = ([], (get_new_cdc_records (inr t) self).1.2, []).
Proof.
  rewrite (ProducerFacts.scan_inr t self). cbn [fst snd].
  set (offset := max_offset (last_offset self) (select_emp_cdc t (last_offset self))).
  rewrite ProducerFacts.scan_inr. cbn [last_offset].
  assert (Hnil : select_emp_cdc t offset = []).
  { destruct (select_emp_cdc t offset) as [|row rows] eqn:E; [done |]. exfalso.
    assert (Hrow : row ∈ select_emp_cdc t offset) by (rewrite E; left).
    apply ProducerFacts.elem_of_select in Hrow as [Hrow Hlt].
    destruct (ProducerFacts.max_offset_ge (select_emp_cdc t (last_offset self))
                (last_offset self)) as [Hge Hall].
    rewrite Forall_forall in Hall. specialize (Hall row).
    rewrite ProducerFacts.elem_of_select in Hall. fold offset in Hge, Hall.
    assert (row.1 ≤ offset); [apply Hall; split; [done | lia] | lia]. }
  by rewrite Hnil.
Qed.

(** X9: what the consumer writes for a record of the producer are the
    values of the logged row: a NULL date travels as the empty string and
    arrives as NULL, and a date arrives as its ISO text, never as NULL. *)
Theorem consumer_writes_logged_values (row : fetched) :
  Consumer.row_of_record (record_of_row row) = mirror (DbSetup.snapshot row.2).
Proof. apply PipelineFacts.row_of_record_of_row. Qed.

End ProducerMoreFacts.

(** ** More on the apply engine *)
Module ConsumerMoreFacts.
Import Employee Consumer Pipeline Notions.

(** X10: a call of [process_message] on a message of the producer, the
    text that [to_json] makes of a record, changes the row of a key only if
    the record has that key and one of the three dispatched actions and the
    database was reached: no other row changes, and neither an event of
    another action nor a failed connection changes the table. *)
Theorem table_changes_only_at_key (connect : exn + unit) (r : CDCRecord) (w : world)
    (k : Z) :
  employees (process_message connect (to_json r) w) !! k ≠ employees w !! k →
  emp_id r = k ∧ dispatched (action r) ∧ connect = inr ().
Proof.
  intros Hchg. destruct connect as [e | []].
  { exfalso. apply Hchg. by rewrite ConsumerFacts.process_message_unreachable. }
  rewrite (ConsumerFacts.process_message_table r w) in Hchg.
  destruct (String.eqb_spec (action r) "INSERT") as [Hi | _];
    [| destruct (String.eqb_spec (action r) "UPDATE") as [Hu | _];
       [| destruct (String.eqb_spec (action r) "DELETE") as [Hd | _]; [| done]]];
    (split; [| split; [unfold dispatched; tauto | done]]);
    destruct (decide (emp_id r = k)) as [Heq | Hne]; try done; exfalso; apply Hchg;
    by rewrite ?lookup_insert_ne, ?lookup_delete_ne.
Qed.

(** X11: after an event of a dispatched action the row of its key is the
    row of the event for an INSERT or an UPDATE and missing for a DELETE,
    whatever the table held, and every other key has the row it had. *)
Theorem message_settles_its_key (r : CDCRecord) (w : world) (k : Z) :
  dispatched (action r) →
  employees (process_message (inr ()) (to_json r) w) !! k
  = if emp_id r =? k then effect r else employees w !! k.
Proof. apply PipelineFacts.process_message_lookup. Qed.

(** X12: every event, whatever its action, leaves after two applications
    in a row the table that one application leaves. *)
Theorem any_event_idempotent (r : CDCRecord) (w : world) :
  employees (apply_stream [r; r] w) = employees (apply_stream [r] w).
Proof.
  rewrite !ConsumerFacts.apply_stream_cons, !ConsumerFacts.apply_stream_nil.
  rewrite !ConsumerFacts.process_message_table.
  destruct (String.eqb (action r) "INSERT"); [apply insert_insert_eq |].
  destruct (String.eqb (action r) "UPDATE"); [apply insert_insert_eq |].
  destruct (String.eqb (action r) "DELETE"); [apply delete_delete_eq | done].
Qed.

(** X13: two events of different keys can be applied in either order: the
    table is the same. *)
Theorem different_keys_commute (a b : CDCRecord) (w : world) :
  emp_id a ≠ emp_id b →
  employees (apply_stream [a; b] w) = employees (apply_stream [b; a] w).
Proof.
  intros Hne. rewrite !ConsumerFacts.apply_stream_cons, !ConsumerFacts.apply_stream_nil.
  rewrite !ConsumerFacts.process_message_table.
  apply map_eq. intros k.
  destruct (String.eqb (action a) "INSERT"), (String.eqb (action a) "UPDATE"),
    (String.eqb (action a) "DELETE"), (String.eqb (action b) "INSERT"),
    (String.eqb (action b) "UPDATE"), (String.eqb (action b) "DELETE");
    repeat (rewrite lookup_insert || rewrite lookup_delete || case_decide); congruence.
Qed.

(** X14: of two events of one key the later one decides: applying both
    leaves the table that the later one alone leaves, when its action is
    dispatched. *)
Theorem later_event_wins (a b : CDCRecord) (w : world) :
  emp_id a = emp_id b →
  dispatched (action b) →
  employees (apply_stream [a; b] w) = employees (apply_stream [b] w).
Proof.
  intros Hk Hb. rewrite !ConsumerFacts.apply_stream_cons, !ConsumerFacts.apply_stream_nil.
  rewrite !ConsumerFacts.process_message_table, Hk.
  apply map_eq. intros k.
  destruct Hb as [-> | [-> | ->]]; cbn [String.eqb Ascii.eqb Bool.eqb];
    destruct (String.eqb (action a) "INSERT"), (String.eqb (action a) "UPDATE"),
      (String.eqb (action a) "DELETE");
    repeat (rewrite lookup_insert || rewrite lookup_delete || case_decide); congruence.
Qed.

Lemma process_message_table_ext (connect : exn + unit) (msg : string) (w1 w2 : world) :
  employees w1 = employees w2 →
  employees (process_message connect msg w1) = employees (process_message connect msg w2).
Proof.
  intros Heq. unfold process_message.
  destruct (from_json msg) as [e | r]; [done |]. destruct connect as [e | u]; [done |].
  rewrite Heq.
  destruct (String.eqb (action r) "INSERT"); [done |].
  destruct (String.eqb (action r) "UPDATE").
  - unfold _handle_update, execute_update. cbn [table].
    by destruct (employees w2 !! emp_id r).
  - destruct (String.eqb (action r) "DELETE"); [| done].
    unfold _handle_delete, execute_delete. cbn [table].
    by destruct (employees w2 !! emp_id r).
Qed.

(** X15: the polls that return no message and the messages that carry a
    Kafka error do not touch the table: after the loop of [consume_cdc] it
    is the table that the messages alone leave. *)
Theorem idle_polls_change_nothing (connect : exn + unit) (polls : list polled) (w : world) :
  employees (consume_cdc (process_message connect) polls w)
  = employees (consume_cdc (process_message connect) (List.filter is_message polls) w).
Proof.
  unfold consume_cdc.
  assert (Hgen : ∀ w1 w2, employees w1 = employees w2 →
    employees (foldl (consume_step (process_message connect)) w1 polls)
    = employees (foldl (consume_step (process_message connect)) w2
                   (List.filter is_message polls))); [| by apply Hgen].
  induction polls as [|p polls IH]; intros w1 w2 Heq; [done |].
  destruct p as [| [] text | value]; cbn [List.filter is_message foldl consume_step].
  - by apply IH.
  - by apply IH.
  - by apply IH.
  - by apply IH, process_message_table_ext.
Qed.

End ConsumerMoreFacts.

(** ** More on the pipeline *)
Module PipelineMoreFacts.
Import Employee Pipeline Notions.

(** X16: a stream in which the last arrival of every key is the latest
    event of the key, such as a stream that replays a stretch of the log and
    then runs to its end, leaves the replica with the rows of the source. *)
Theorem settled_stream_converges (sts : list DbSetup.statement) (delivered : list CDCRecord) :
  settles (change_events (DbSetup.execute_all sts DbSetup.empty_source)) delivered = true →
  Consumer.employees (apply_stream delivered Consumer.empty_world)
  = mirror <$> DbSetup.employees (DbSetup.execute_all sts DbSetup.empty_source).
Proof. apply PipelineFacts.replica_converges_settled. Qed.

Lemma last_for_app (k : Z) (l1 l2 : list CDCRecord) :
  last_for k (l1 ++ l2)
  = match last_for k l2 with
    | Some x => Some x
    | None => last_for k l1
    end.
Proof.
  induction l1 as [|a l1 IH]; cbn [app last_for].
  - by destruct (last_for k l2).
  - rewrite IH. by destruct (last_for k l2).
Qed.

Lemma sorted_key_ordered (l : list CDCRecord) :
  StronglySorted Z.lt (cdc_id <$> l) → key_ordered l = true.
Proof.
  induction l as [|a l IH]; [done |].
  rewrite fmap_cons. intros [Ha Hl]%StronglySorted_cons.
  cbn [key_ordered]. rewrite (IH Hl), andb_true_r.
  apply PipelineFacts.elem_of_forallb. intros b Hb.
  rewrite Forall_forall in Ha.
  assert (cdc_id a < cdc_id b) by (apply Ha, list_elem_of_fmap; eauto).
  apply orb_true_iff. right. apply Z.leb_le. lia.
Qed.

Lemma change_events_sorted (db : DbSetup.source_db) :
  StronglySorted Z.lt (cdc_id <$> change_events db).
Proof.
  unfold change_events. rewrite ProducerFacts.scan_inr. cbn [fst].
  rewrite ProducerFacts.cdc_id_records. apply ProducerFacts.select_sorted.
Qed.

(** X17: a producer that starts again starts at offset zero and returns
    the whole log once more.  Whatever events were delivered before, the
    replica has the rows of the source after the log has been delivered
    again from its start. *)
Theorem restart_replay_converges (sts : list DbSetup.statement) (before : list CDCRecord) :
  (∀ e, e ∈ before → e ∈ change_events (DbSetup.execute_all sts DbSetup.empty_source)) →
  Consumer.employees
    (apply_stream (before ++ change_events (DbSetup.execute_all sts DbSetup.empty_source))
       Consumer.empty_world)
  = mirror <$> DbSetup.employees (DbSetup.execute_all sts DbSetup.empty_source).
Proof.
  intros Hbefore. apply PipelineFacts.replica_converges_settled.
  set (events := change_events (DbSetup.execute_all sts DbSetup.empty_source)) in *.
  unfold settles. rewrite andb_true_iff, !PipelineFacts.elem_of_forallb. split.
  - intros e [He | He]%elem_of_app; apply bool_decide_eq_true; auto.
  - intros e He. rewrite last_for_app.
    pose proof (sorted_key_ordered events (change_events_sorted _)) as Hord.
    destruct (last_for (emp_id e) events) as [l|] eqn:Elast.
    + apply Z.leb_le. by apply (PipelineFacts.last_for_max _ _ _ Hord Elast).
    + by destruct (PipelineFacts.last_for_None _ _ Elast e He).
Qed.

(** X18: every change event of a source database that the statements have
    built has one of the three actions that the consumer dispatches, and a
    positive [cdc_id], above the offset of a new handler. *)
Theorem change_events_dispatched (sts : list DbSetup.statement) :
  Forall (λ r, dispatched (action r) ∧ 0 < cdc_id r)
    (change_events (DbSetup.execute_all sts DbSetup.empty_source)).
Proof.
  pose proof (DbSetupFacts.source_inv_execute_all sts _ DbSetupFacts.source_inv_empty)
    as Hinv.
  apply Forall_forall. intros r Hr.
  apply PipelineFacts.change_events_elem in Hr as (id & row & Hrow & ->); [| done].
  destruct Hinv as (_ & Hlog & _). destruct (Hlog _ _ Hrow) as [Hid Hact].
  split; [done | cbn; lia].
Qed.

End PipelineMoreFacts.

(** ** The text on the wire *)
Module WireFacts.
Import Json Notions.

Lemma all_printable_append (a b : string) :
  all_printable a → all_printable b → all_printable (a +:+ b).
Proof.
  unfold all_printable. intros Ha Hb. induction a as [|c a IH]; [done |].
  cbn in Ha |- *. apply andb_true_iff in Ha as [Hc Ha].
  by rewrite Hc, IH.
Qed.

Lemma escape_char_printable (c : ascii) : all_printable (escape_char c).
Proof. destruct c as [[] [] [] [] [] [] [] []]; reflexivity. Qed.

Lemma escape_printable (s : string) : all_printable (escape s).
Proof.
  induction s as [|c s IH]; [done |]. cbn [escape].
  apply all_printable_append; [apply escape_char_printable | done].
Qed.

Lemma encode_string_printable (s : string) : all_printable (encode_string s).
Proof.
  unfold encode_string.
  apply (all_printable_append (String dquote "")); [done |].
  apply all_printable_append; [apply escape_printable | done].
Qed.

Lemma string_of_uint_printable (d : Decimal.uint) :
  all_printable (NilEmpty.string_of_uint d).
Proof. unfold all_printable. induction d; cbn; done. Qed.

Lemma str_int_printable (z : Z) : all_printable (str_int z).
Proof.
  unfold str_int. destruct z as [|p|p]; cbn; [done | |].
  - unfold NilZero.string_of_uint.
    destruct (Pos.to_uint p) eqn:E; [done | rewrite <- E..]; apply string_of_uint_printable.
  - apply (all_printable_append "-"); [done |]. unfold NilZero.string_of_uint.
    destruct (Pos.to_uint p) eqn:E; [done | rewrite <- E..]; apply string_of_uint_printable.
Qed.

Lemma encode_value_printable (v : value) : all_printable (encode_value v).
Proof.
  destruct v; cbn [encode_value];
    [done | apply str_int_printable | apply encode_string_printable].
Qed.

Lemma encode_member_printable (kv : string * value) : all_printable (encode_member kv).
Proof.
  unfold encode_member.
  apply all_printable_append; [apply encode_string_printable |].
  apply (all_printable_append ": "); [done | apply encode_value_printable].
Qed.

Lemma join_printable (l : list string) :
  Forall all_printable l → all_printable (join ", " l).
Proof.
  induction 1 as [|s l Hs Hl IH]; [done |].
  destruct (decide (l = [])) as [-> | Hne]; [done |].
  rewrite JsonFacts.join_cons by done.
  apply all_printable_append; [done |]. by apply (all_printable_append ", ").
Qed.

Lemma dumps_printable (d : list (string * value)) : all_printable (dumps d).
Proof.
  unfold dumps. apply (all_printable_append "{"); [done |].
  apply all_printable_append; [| done].
  apply join_printable, Forall_fmap, Forall_forall. intros kv _.
  apply encode_member_printable.
Qed.

(** X19: the text that [to_json] writes for a record consists of printable
    ASCII characters only, whatever characters the names and the city
    hold: no line break, no control character and nothing above 126. *)
Theorem to_json_printable (r : Employee.CDCRecord) :
  forallb printable (list_ascii_of_string (Employee.to_json r)) = true.
Proof. apply dumps_printable. Qed.

End WireFacts.

(** ** The lookup of a topic *)
Module AdminFacts.
Import Admin.

(** X20: [topic_exists] answers True exactly when one of the topics of the
    metadata has the name asked for, and False on empty metadata. *)
Theorem topic_exists_iff (topics : list TopicMetadata) (name : string) :
  topic_exists topics name = true ↔ ∃ t, t ∈ topics ∧ topic t = name.
Proof.
  induction topics as [|t topics IH]; cbn [topic_exists].
  - split; [done |]. by intros (t & Ht%not_elem_of_nil & _).
  - destruct (String.eqb_spec (topic t) name) as [Heq | Hne].
    + split; [| done]. intros _. exists t. split; [left | done].
    + rewrite IH. split.
      * intros (t' & Ht' & Hn). exists t'. split; [by right | done].
      * intros (t' & [-> | Ht']%elem_of_cons & Hn); [done | eauto].
Qed.

End AdminFacts.

(** ** The statements above on concrete inputs *)
Module MoreWitnesses.
Import Employee Pipeline Notions Scenario Samples.


Lemma table_changes_only_at_key_witness :
  emp_id e1 = 1 ∧ dispatched (action e1) ∧ @inr exn unit () = inr ().
Proof.
  apply (ConsumerMoreFacts.table_changes_only_at_key (inr ()) e1 Consumer.empty_world 1).
  vm_compute. discriminate.
Defined.

Lemma message_settles_its_key_witness :
  Consumer.employees (Consumer.process_message (inr ()) (to_json e5) two_rows) !! 3
  = if emp_id e5 =? 3 then effect e5 else Consumer.employees two_rows !! 3.
Proof.
  apply (ConsumerMoreFacts.message_settles_its_key e5 two_rows 3).
  right. right. reflexivity.
Defined.

Lemma different_keys_commute_witness :
  Consumer.employees (apply_stream [e1; e2] Consumer.empty_world)
  = Consumer.employees (apply_stream [e2; e1] Consumer.empty_world).
Proof.
  apply (ConsumerMoreFacts.different_keys_commute e1 e2 Consumer.empty_world).
  vm_compute. discriminate.
Defined.

Lemma later_event_wins_witness :
  Consumer.employees (apply_stream [e3; e5] two_rows)
  = Consumer.employees (apply_stream [e5] two_rows).
Proof.
  apply (ConsumerMoreFacts.later_event_wins e3 e5 two_rows).
  - reflexivity.
  - right. right. reflexivity.
Defined.

Lemma settled_stream_converges_witness :
  Consumer.employees (apply_stream replayed Consumer.empty_world)
  = mirror <$> DbSetup.employees (DbSetup.execute_all statements DbSetup.empty_source).
Proof.
  apply (PipelineMoreFacts.settled_stream_converges statements replayed).
  vm_compute. reflexivity.
Defined.

Lemma restart_replay_converges_witness :
  Consumer.employees
    (apply_stream
       (before_restart
        ++ change_events (DbSetup.execute_all statements DbSetup.empty_source))
       Consumer.empty_world)
  = mirror <$> DbSetup.employees (DbSetup.execute_all statements DbSetup.empty_source).
Proof.
  apply (PipelineMoreFacts.restart_replay_converges statements before_restart).
  apply Forall_forall. apply (bool_decide_unpack _). vm_compute. exact I.
Defined.

End MoreWitnesses.
